(** * Video render service: job lifecycle and admission control

    A shallow embedding of [render_api.py]: the job registry
    ([jobs_status], a dict of dicts), the in-flight counter
    ([active_jobs]), the submission handler [create_render_job], the
    background coroutine [process_render_job] with its helpers
    [download_file_async] and [render_video], and the properties of the
    job lifecycle proved over every interleaving of submissions and
    coroutine resumptions. *)

From Stdlib Require Import Ascii.
From stdpp Require Import gmap strings list fin_maps pretty sorting.

Local Open Scope string_scope.
Local Open Scope Z_scope.

(** ** Python values *)

(** The values stored in a job record: strings and integers. *)
Inductive Value :=
| VStr (s : string)
| VInt (n : Z).

#[global] Instance Value_eq_dec : EqDecision Value.
Proof. solve_decision. Defined.

(** A Python [dict] with string keys. *)
Abbreviation Dict := (gmap string Value).

(** [d.update(new)]: the keys of [new] override those of [d]. *)
Definition dict_update (new d : Dict) : Dict := new ∪ d.

(** [d.get(k, default)]. *)
Definition dict_get {V} (d : gmap string V) (k : string) (dflt : V) : V :=
  default dflt (d !! k).

(** [needle in hay] on strings. *)
Fixpoint contains (needle hay : string) : bool :=
  String.prefix needle hay ||
  match hay with
  | EmptyString => false
  | String _ hay' => contains needle hay'
  end.

(** [s.endswith(suffix)]. *)
Definition endswith (s suffix : string) : bool :=
  String.prefix (String.rev suffix) (String.rev s).

(** A raised exception is represented by its [str(e)]. *)
Inductive Result (A : Type) :=
| Return (a : A)
| Raise (msg : string).
Arguments Return {A} a.
Arguments Raise {A} msg.

(** ** Data model *)

(** [pydantic.HttpUrl]; the code only ever takes [str(url)]. *)
Record HttpUrl := { str_url : string }.

(** [pathlib.Path], as the directory and the final component. *)
Record Path := { parent : string; name : string }.

Definition path_div (dir fname : string) : Path :=
  {| parent := dir; name := fname |}.

Definition str_path (p : Path) : string := parent p ++ "/" ++ name p.

Record RenderRequest := {
  video_url : HttpUrl;
  audio_url : HttpUrl;
  quality : string
}.

(** The model constructor [RenderRequest(video_url=..., audio_url=...,
    quality=...)]: the field declaration [quality: str = "high"] supplies
    the value of an omitted [quality]. *)
Definition RenderRequest_init (video audio : HttpUrl) (q : option string)
  : RenderRequest :=
  {| video_url := video; audio_url := audio; quality := default "high" q |}.

(** Where a [process_render_job] coroutine stands: the line of
    [render_api.py] it executes next, with the local variables bound so far.
    [L206] is the [except] block (holding [str(e)]), [L217] the [finally]
    block. *)
Inductive Point :=
| L175
| L176
| L177
| L180
| L181 (video_path : Path)
| L183 (video_path : Path)
| L184 (video_path audio_path : Path)
| L187 (video_path audio_path : Path)
| L188 (video_path audio_path : Path)
| L189 (video_path audio_path output_path : Path)
| L192 (video_path audio_path output_path : Path)
| L201 (video_path audio_path : Path)
| L206 (error_msg : string)
| L217
| Finished.

(** A task handed to [background_tasks.add_task]. *)
Record Task := {
  job_id : string;
  request : RenderRequest;
  pc : Point
}.

(** The module's global state, and the tasks FastAPI holds. *)
Record State := {
  jobs_status : gmap string Dict;
  active_jobs : Z;
  background : list Task
}.

Definition initial : State :=
  {| jobs_status := ∅; active_jobs := 0; background := [] |}.

Definition with_jobs_status (js : gmap string Dict) (st : State) : State :=
  {| jobs_status := js; active_jobs := active_jobs st;
     background := background st |}.

(** What the outside world answers to the coroutine. *)
Inductive HttpResult :=
| HttpOk (content_type : string)
| HttpRaised (e : string).

(** The encoder once it has exited. [stderr] is what
    [stderr.decode('utf-8')] gives for the bytes captured: the text, or
    [Raise] with the [str] of the [UnicodeDecodeError]. [output_exists] is
    [output_file.exists()] at that time. *)
Record ProcessResult := {
  returncode : Z;
  stderr : Result string;
  output_exists : bool
}.

(** [asyncio.create_subprocess_exec] followed by [communicate]: either the
    launch raises (no [ffmpeg] binary, no permission), with the [str] of the
    exception, or the process runs and exits. *)
Inductive ExecResult :=
| ExecRaised (e : string)
| Exited (process : ProcessResult).

Record Env := {
  http : string → HttpResult;
  ffmpeg : list string → ExecResult;
  now : string
}.

(** The answer of an endpoint. *)
Inductive Response :=
| HTTPException (status_code : Z) (detail : string)
| Json (body : Dict).

(** ** Code that mutates the globals: state and exceptions *)

Definition M (A : Type) : Type := State → Result A * State.

#[global] Instance M_ret : MRet M := λ A a st, (Return a, st).

#[global] Instance M_bind : MBind M := λ A B f m st,
  match m st with
  | (Return a, st') => f a st'
  | (Raise e, st') => (Raise e, st')
  end.

Definition raise {A} (r : Result A) : M A := λ st, (r, st).

(** [jobs_status[job_id][key] = v]; [KeyError] for an unknown [job_id]. *)
Definition setitem (job_id key : string) (v : Value) : M () := λ st,
  match jobs_status st !! job_id with
  | Some d =>
      (Return (), with_jobs_status (<[job_id := <[key := v]> d]> (jobs_status st)) st)
  | None => (Raise ("'" ++ job_id ++ "'"), st)
  end.

(** [jobs_status[job_id].update(new)]. *)
Definition update (job_id : string) (new : Dict) : M () := λ st,
  match jobs_status st !! job_id with
  | Some d =>
      (Return (), with_jobs_status (<[job_id := dict_update new d]> (jobs_status st)) st)
  | None => (Raise ("'" ++ job_id ++ "'"), st)
  end.

Definition modify (f : State → State) : M () := λ st, (Return (), f st).

(** [active_jobs -= 1]. *)
Definition release (st : State) : State :=
  {| jobs_status := jobs_status st; active_jobs := active_jobs st - 1;
     background := background st |}.

(** Configuration read from the environment at import time. *)
Class Config := {
  FFMPEG_THREADS : Z;
  MAX_CONCURRENT_JOBS : Z;
  TEMP_DIR : string;
  OUTPUT_DIR : string
}.

Section Service.

Context `{Config}.

(** *** POST /render *)

Definition new_record (job_id created : string) (request : RenderRequest) : Dict :=
  list_to_map [
    ("job_id", VStr job_id);
    ("status", VStr "pending");
    ("progress", VInt 0);
    ("message", VStr "Job queued for processing");
    ("created_at", VStr created);
    ("video_url", VStr (str_url (video_url request)));
    ("audio_url", VStr (str_url (audio_url request)));
    ("quality", VStr (quality request))
  ].

(** [uuid4] is [str(uuid.uuid4())] and [created] is
    [datetime.now().isoformat()], both drawn by the handler once it is past
    the capacity check. *)
Definition create_render_job (uuid4 created : string) (request : RenderRequest)
    (st : State) : Response * State :=
  if bool_decide (MAX_CONCURRENT_JOBS ≤ active_jobs st) then
    (HTTPException 429
       ("Maximum concurrent jobs (" ++ pretty MAX_CONCURRENT_JOBS
          ++ ") reached. Try again later."),
     st)
  else
    let job_id := String.substring 0 8 uuid4 in
    (Json (list_to_map [
       ("job_id", VStr job_id);
       ("status", VStr "pending");
       ("message", VStr "Job created successfully")
     ]),
     {| jobs_status := <[job_id := new_record job_id created request]> (jobs_status st);
        active_jobs := active_jobs st + 1;
        background :=
          background st ++ [{| job_id := job_id; request := request; pc := L175 |}] |}).

(** *** GET /status/{job_id} *)

Definition get_job_status (job_id : string) (st : State) : Response :=
  match jobs_status st !! job_id with
  | Some d => Json d
  | None => HTTPException 404 "Job not found"
  end.

(** *** Downloader *)

Definition download_file_async (get : string → HttpResult) (url : HttpUrl)
    (job_id file_type : string) : Result Path :=
  match get (str_url url) with
  | HttpRaised e => Raise ("Failed to download " ++ file_type ++ ": " ++ e)
  | HttpOk content_type =>
      let extension :=
        if String.eqb file_type "video" then ".mp4"
        else if String.eqb file_type "audio" then
          if contains "wav" content_type || endswith (str_url url) ".wav"
          then ".wav" else ".mp3"
        else "" in
      Return (path_div TEMP_DIR (job_id ++ "_" ++ file_type ++ extension))
  end.

(** *** Encoder invoker *)

Definition quality_settings : gmap string (list string) :=
  list_to_map [
    ("high", ["-crf"; "18"; "-preset"; "medium"]);
    ("medium", ["-crf"; "23"; "-preset"; "fast"]);
    ("low", ["-crf"; "28"; "-preset"; "ultrafast"])
  ].

(** [quality_settings.get(quality, quality_settings["medium"])]. *)
Definition quality_args (quality : string) : list string :=
  dict_get quality_settings quality (quality_settings !!! "medium").

Definition ffmpeg_cmd (video_path audio_path output_file : Path)
    (quality : string) : list string :=
  (["ffmpeg"; "-y";
    "-i"; str_path video_path;
    "-i"; str_path audio_path;
    "-c:v"; "libx264";
    "-c:a"; "aac";
    "-threads"; pretty FFMPEG_THREADS]
   ++ quality_args quality
   ++ ["-movflags"; "+faststart"; str_path output_file])%list.

(** [run] launches the command and waits for it. An exception of the
    launch, or of decoding the captured standard error, leaves
    [render_video] as it is. *)
Definition render_video (run : list string → ExecResult)
    (video_path audio_path : Path) (job_id quality : string) : Result Path :=
  let output_file := path_div OUTPUT_DIR ("render_" ++ job_id ++ ".mp4") in
  match run (ffmpeg_cmd video_path audio_path output_file quality) with
  | ExecRaised e => Raise e
  | Exited process =>
      if bool_decide (returncode process ≠ 0) then
        match stderr process with
        | Return error_msg => Raise ("FFmpeg rendering failed: " ++ error_msg)
        | Raise e => Raise e
        end
      else if negb (output_exists process) then
        Raise "Output file was not created"
      else Return output_file
  end.

(** [cleanup_temp_files] unlinks the downloads and swallows every exception
    of its own; it reads and writes neither global. *)
Definition cleanup_temp_files (file_paths : list Path) : M () := mret ().

(** *** The job body *)

Definition completed_fields (finished : string) (output_path : Path) : Dict :=
  list_to_map [
    ("status", VStr "completed");
    ("progress", VInt 100);
    ("message", VStr "Rendering completed successfully");
    ("completed_at", VStr finished);
    ("output_file", VStr (name output_path))
  ].

Definition failed_fields (finished error_msg : string) : Dict :=
  list_to_map [
    ("status", VStr "failed");
    ("message", VStr ("Rendering failed: " ++ error_msg));
    ("error", VStr error_msg);
    ("completed_at", VStr finished)
  ].

(** The statement at a point of the coroutine, and the point after it. The
    three [await]ed helpers get their answer from [env]. *)
Definition statement (job_id : string) (request : RenderRequest) (env : Env)
    (at_ : Point) : M Point :=
  match at_ with
  | L175 =>
      setitem job_id "status" (VStr "processing");; mret L176
  | L176 =>
      setitem job_id "message" (VStr "Starting download");; mret L177
  | L177 =>
      setitem job_id "progress" (VInt 10);; mret L180
  | L180 =>
      video_path ← raise (download_file_async (http env) (video_url request) job_id "video");
      mret (L181 video_path)
  | L181 video_path =>
      setitem job_id "progress" (VInt 30);; mret (L183 video_path)
  | L183 video_path =>
      audio_path ← raise (download_file_async (http env) (audio_url request) job_id "audio");
      mret (L184 video_path audio_path)
  | L184 video_path audio_path =>
      setitem job_id "progress" (VInt 50);; mret (L187 video_path audio_path)
  | L187 video_path audio_path =>
      setitem job_id "message" (VStr "Processing video");;
      mret (L188 video_path audio_path)
  | L188 video_path audio_path =>
      output_path ← raise (render_video (ffmpeg env) video_path audio_path job_id
                             (quality request));
      mret (L189 video_path audio_path output_path)
  | L189 video_path audio_path output_path =>
      setitem job_id "progress" (VInt 90);;
      mret (L192 video_path audio_path output_path)
  | L192 video_path audio_path output_path =>
      update job_id (completed_fields (now env) output_path);;
      mret (L201 video_path audio_path)
  | L201 video_path audio_path =>
      cleanup_temp_files [video_path; audio_path];; mret L217
  | L206 error_msg =>
      update job_id (failed_fields (now env) error_msg);; mret L217
  | L217 =>
      modify release;; mret Finished
  | Finished => mret Finished
  end.

(** The points of the [try] block. *)
Definition in_try (at_ : Point) : bool :=
  match at_ with
  | L206 _ | L217 | Finished => false
  | _ => true
  end.

(** One step of the coroutine. An exception raised in the [try] block is
    caught by [except Exception as e]; one raised by the handler itself
    leaves through [finally]. *)
Definition process_render_job (job_id : string) (request : RenderRequest)
    (env : Env) (at_ : Point) (st : State) : Point * State :=
  match statement job_id request env at_ st with
  | (Return at', st') => (at', st')
  | (Raise error_msg, st') =>
      (if in_try at_ then L206 error_msg else L217, st')
  end.

(** ** The service as a transition system *)

Inductive Event :=
| Submit (request : RenderRequest) (uuid4 created : string)
| Resume (i : nat) (env : Env).

Definition resume (i : nat) (env : Env) (st : State) : State :=
  match background st !! i with
  | Some t =>
      match pc t with
      | Finished => st
      | at_ =>
          let (at', st') := process_render_job (job_id t) (request t) env at_ st in
          {| jobs_status := jobs_status st';
             active_jobs := active_jobs st';
             background :=
               <[i := {| job_id := job_id t; request := request t; pc := at' |}]>
                 (background st') |}
      end
  | None => st
  end.

Definition step (st : State) (ev : Event) : State :=
  match ev with
  | Submit request uuid4 created => (create_render_job uuid4 created request st).2
  | Resume i env => resume i env st
  end.

Definition run (st : State) (evs : list Event) : State := foldl step st evs.

End Service.

(** ** What an observer of the registry sees *)

Definition progress_of (d : Dict) : option Z :=
  match d !! "progress" with Some (VInt n) => Some n | _ => None end.

Definition status_of (d : Dict) : option string :=
  match d !! "status" with Some (VStr s) => Some s | _ => None end.

(** [d[k]] is a non-empty string. *)
Definition filled (d : Dict) (k : string) : Prop :=
  ∃ s, d !! k = Some (VStr s) ∧ s ≠ "".

(** The record as each point of the coroutine finds it. *)
Definition in_progress (s : string) (p : Z) (d : Dict) : Prop :=
  d !! "status" = Some (VStr s) ∧ d !! "progress" = Some (VInt p) ∧
  d !! "completed_at" = None ∧ d !! "output_file" = None ∧ d !! "error" = None.

Definition completed (d : Dict) : Prop :=
  d !! "status" = Some (VStr "completed") ∧ d !! "progress" = Some (VInt 100) ∧
  is_Some (d !! "completed_at") ∧ filled d "output_file" ∧ d !! "error" = None.

Definition failed (d : Dict) : Prop :=
  d !! "status" = Some (VStr "failed") ∧
  (∃ p, d !! "progress" = Some (VInt p) ∧ (p = 10 ∨ p = 30 ∨ p = 50)) ∧
  is_Some (d !! "completed_at") ∧ (∃ e, d !! "error" = Some (VStr e)) ∧
  d !! "output_file" = None.

Definition agrees (at_ : Point) (d : Dict) : Prop :=
  match at_ with
  | L175 => in_progress "pending" 0 d
  | L176 | L177 => in_progress "processing" 0 d
  | L180 | L181 _ => in_progress "processing" 10 d
  | L183 _ | L184 _ _ => in_progress "processing" 30 d
  | L187 _ _ | L188 _ _ => in_progress "processing" 50 d
  | L189 _ _ output_path => name output_path ≠ "" ∧ in_progress "processing" 50 d
  | L192 _ _ output_path => name output_path ≠ "" ∧ in_progress "processing" 90 d
  | L201 _ _ => completed d
  | L206 _ =>
      ∃ p, in_progress "processing" p d ∧ (p = 10 ∨ p = 30 ∨ p = 50)
  | L217 | Finished => completed d ∨ failed d
  end.

(** The registry and the tasks fit: every task has its record, in the shape
    its point expects; no two tasks share an identifier; every record
    belongs to a task. *)
Record consistent (st : State) : Prop := {
  tasks_registered : ∀ i t, background st !! i = Some t →
    ∃ d, jobs_status st !! job_id t = Some d ∧ agrees (pc t) d;
  tasks_distinct : ∀ i i' t t', background st !! i = Some t →
    background st !! i' = Some t' → job_id t = job_id t' → i = i';
  records_owned : ∀ j d, jobs_status st !! j = Some d →
    ∃ i t, background st !! i = Some t ∧ job_id t = j
}.

(** One step of a record: progress does not decrease, the status stays or
    moves forward, a terminal record is left alone. *)
Inductive transition : string → string → Prop :=
| transition_none s : transition s s
| transition_start : transition "pending" "processing"
| transition_complete : transition "processing" "completed"
| transition_fail : transition "processing" "failed".

Definition rank (s : string) : nat :=
  if String.eqb s "pending" then 0
  else if String.eqb s "processing" then 1
  else 2.

Definition not_earlier (s s' : string) : Prop := (rank s ≤ rank s')%nat.

Definition terminal (s : string) : Prop := s = "completed" ∨ s = "failed".

Definition record_step (d d' : Dict) : Prop :=
  (∃ p p', progress_of d = Some p ∧ progress_of d' = Some p' ∧ p ≤ p') ∧
  (∃ s s', status_of d = Some s ∧ status_of d' = Some s' ∧ transition s s') ∧
  (∀ s, status_of d = Some s → terminal s → d' = d).

Section Traces.

Context `{Config}.

(** The identifier drawn by an admitted submission is not yet in use. *)
Definition fresh (st : State) (ev : Event) : Prop :=
  match ev with
  | Submit _ uuid4 _ =>
      active_jobs st < MAX_CONCURRENT_JOBS →
      jobs_status st !! String.substring 0 8 uuid4 = None
  | Resume _ _ => True
  end.

Fixpoint fresh_run (st : State) (evs : list Event) : Prop :=
  match evs with
  | [] => True
  | ev :: evs' => fresh st ev ∧ fresh_run (step st ev) evs'
  end.

(** The states a run goes through, the first one included. *)
Fixpoint history (st : State) (evs : list Event) : list State :=
  st :: match evs with
        | [] => []
        | ev :: evs' => history (step st ev) evs'
        end.

(** The changes made to [active_jobs] by the successive resumptions of
    task [i] along a run. *)
Fixpoint counter_changes (i : nat) (st : State) (evs : list Event) : list Z :=
  match evs with
  | [] => []
  | ev :: evs' =>
      let rest := counter_changes i (step st ev) evs' in
      match ev with
      | Resume i' _ =>
          if decide (i' = i)
          then (active_jobs (step st ev) - active_jobs st) :: rest
          else rest
      | Submit _ _ _ => rest
      end
  end.

End Traces.

Definition is_finished (at_ : Point) : bool :=
  match at_ with Finished => true | _ => false end.

(** Whether task [i] exists and has returned. *)
Definition finished (st : State) (i : nat) : bool :=
  match background st !! i with
  | Some t => is_finished (pc t)
  | None => false
  end.

(** The statements a coroutine has still to execute, at most. *)
Definition remaining (at_ : Point) : nat :=
  match at_ with
  | L175 => 13 | L176 => 12 | L177 => 11 | L180 => 10
  | L181 _ => 9 | L183 _ => 8 | L184 _ _ => 7 | L187 _ _ => 6
  | L188 _ _ => 5 | L189 _ _ _ => 4 | L192 _ _ _ => 3
  | L201 _ _ => 2 | L206 _ => 2 | L217 => 1 | Finished => 0
  end.

(** The successive values of one observation of the record of [j]. *)
Definition observe {A} (f : Dict → option A) (j : string) (sts : list State)
  : list A :=
  omap (λ st, jobs_status st !! j ≫= f) sts.

(** ** The other endpoints and helpers *)

(** The body of GET /jobs. [jobs] lists the records in the order of the
    model's map, not in the order of insertion of the Python dict. *)
Record JobList := {
  total_jobs : nat;
  listed_active_jobs : Z;
  jobs : list Dict
}.

Definition list_jobs (st : State) : JobList :=
  {| total_jobs := size (jobs_status st);
     listed_active_jobs := active_jobs st;
     jobs := (map_to_list (jobs_status st)).*2 |}.

(** [s.split('\n')[0]]: the text before the first line feed. *)
Fixpoint first_line (s : string) : string :=
  match s with
  | EmptyString => EmptyString
  | String c s' => if Ascii.eqb c "010"%char then EmptyString else String c (first_line s')
  end.

(** What [subprocess.run(['ffmpeg', '-version'], ...)] gives back. *)
Record CompletedProcess := {
  version_returncode : Z;
  stdout : string
}.

(** [get_ffmpeg_version]; [None] stands for an exception of
    [subprocess.run] (no binary, timeout). *)
Definition get_ffmpeg_version (result : option CompletedProcess) : string :=
  match result with
  | Some result =>
      if bool_decide (version_returncode result = 0)
      then first_line (stdout result) else "Unknown"
  | None => "FFmpeg not available"
  end.

(** The tasks that have not returned. *)
Definition in_flight (st : State) : list Task :=
  filter (λ t, is_finished (pc t) = false) (background st).

(** The identifiers drawn by the admitted submissions of a run. *)
Section Drawn.

Context `{Config}.

Fixpoint drawn (st : State) (evs : list Event) : list string :=
  match evs with
  | [] => []
  | ev :: evs' =>
      match ev with
      | Submit _ uuid4 _ =>
          if bool_decide (MAX_CONCURRENT_JOBS ≤ active_jobs st)
          then drawn (step st ev) evs'
          else String.substring 0 8 uuid4 :: drawn (step st ev) evs'
      | Resume _ _ => drawn (step st ev) evs'
      end
  end.

End Drawn.

(** ** The job body as seen from its own record

    What one statement of [process_render_job] does to the record it is
    handed and where it goes next, read off [statement] and
    [process_render_job] for a registered job; [resume_effect] below proves
    that this is what [resume] does. *)

Section Effect.

Context `{Config}.

Definition effect (job_id : string) (request : RenderRequest) (env : Env)
    (at_ : Point) (d : Dict) : Point * Dict :=
  match at_ with
  | L175 => (L176, <["status" := VStr "processing"]> d)
  | L176 => (L177, <["message" := VStr "Starting download"]> d)
  | L177 => (L180, <["progress" := VInt 10]> d)
  | L180 =>
      match download_file_async (http env) (video_url request) job_id "video" with
      | Return video_path => (L181 video_path, d)
      | Raise error_msg => (L206 error_msg, d)
      end
  | L181 video_path => (L183 video_path, <["progress" := VInt 30]> d)
  | L183 video_path =>
      match download_file_async (http env) (audio_url request) job_id "audio" with
      | Return audio_path => (L184 video_path audio_path, d)
      | Raise error_msg => (L206 error_msg, d)
      end
  | L184 video_path audio_path =>
      (L187 video_path audio_path, <["progress" := VInt 50]> d)
  | L187 video_path audio_path =>
      (L188 video_path audio_path, <["message" := VStr "Processing video"]> d)
  | L188 video_path audio_path =>
      match render_video (ffmpeg env) video_path audio_path job_id (quality request) with
      | Return output_path => (L189 video_path audio_path output_path, d)
      | Raise error_msg => (L206 error_msg, d)
      end
  | L189 video_path audio_path output_path =>
      (L192 video_path audio_path output_path, <["progress" := VInt 90]> d)
  | L192 video_path audio_path output_path =>
      (L201 video_path audio_path,
       dict_update (completed_fields (now env) output_path) d)
  | L201 _ _ => (L217, d)
  | L206 error_msg => (L217, dict_update (failed_fields (now env) error_msg) d)
  | L217 => (Finished, d)
  | Finished => (Finished, d)
  end.

Definition effects (job_id : string) (request : RenderRequest) (envs : list Env)
    (start : Point * Dict) : Point * Dict :=
  foldl (λ '(at_, d) env, effect job_id request env at_ d) start envs.

End Effect.

(** The answers a run gives to task [i], in order. *)
Definition answers (i : nat) (evs : list Event) : list Env :=
  omap (λ ev, match ev with
              | Resume i' env => if decide (i' = i) then Some env else None
              | Submit _ _ _ => None
              end) evs.

(** An outside world in which the sources of [request] download and the
    encoder succeeds. *)
Definition favourable (request : RenderRequest) (env : Env) : Prop :=
  (∃ content_type, http env (str_url (video_url request)) = HttpOk content_type) ∧
  (∃ content_type, http env (str_url (audio_url request)) = HttpOk content_type) ∧
  (∀ cmd, ∃ process, ffmpeg env cmd = Exited process ∧
                     returncode process = 0 ∧ output_exists process = true).

(** ** A deployment and a few runs

    The configuration with the defaults of the module, two requests, and
    the answers of the outside world used in the examples. *)

Definition defaults : Config :=
  {| FFMPEG_THREADS := 3; MAX_CONCURRENT_JOBS := 2;
     TEMP_DIR := "/tmp/ffmpeg"; OUTPUT_DIR := "/app/output" |}.

Definition request_a : RenderRequest :=
  RenderRequest_init {| str_url := "https://media.example/clip.mp4" |}
                     {| str_url := "https://media.example/voice.wav" |} None.

Definition request_b : RenderRequest :=
  RenderRequest_init {| str_url := "https://media.example/gone.mp4" |}
                     {| str_url := "https://media.example/music.mp3" |} (Some "low").

Definition uuid_a : string := "3f2a9c1e-7b64-4d10-9a5e-0c1d2e3f4a5b".
Definition uuid_b : string := "a81c04d7-2e9f-4c33-b6a1-5d6e7f8091a2".
(** A second draw that agrees with [uuid_a] on its first eight characters. *)
Definition uuid_c : string := "3f2a9c1e-0d8e-4f6a-8b21-9e8d7c6b5a40".
Definition uuid_d : string := "5b7e2d90-1c3a-4e8f-a2b4-6c8d0e1f2a3b".

(** Every URL is served but [gone.mp4]; the encoder succeeds. *)
Definition world (time : string) : Env :=
  {| http := λ url,
       if String.eqb url "https://media.example/gone.mp4"
       then HttpRaised "404 Client Error: Not Found for url: https://media.example/gone.mp4"
       else HttpOk "application/octet-stream";
     ffmpeg := λ _, Exited {| returncode := 0; stderr := Return "";
                              output_exists := true |};
     now := time |}.

(** Two jobs, interleaved: the first runs to its end, the second fails on
    its video download. *)
Definition two_jobs : list Event :=
  [Submit request_a uuid_a "2024-05-01T10:00:00";
   Resume 0 (world "2024-05-01T10:00:01");
   Submit request_b uuid_b "2024-05-01T10:00:02";
   Resume 1 (world "2024-05-01T10:00:03");
   Resume 0 (world "2024-05-01T10:00:04");
   Resume 1 (world "2024-05-01T10:00:05");
   Resume 1 (world "2024-05-01T10:00:06");
   Resume 0 (world "2024-05-01T10:00:07");
   Resume 1 (world "2024-05-01T10:00:08");
   Resume 0 (world "2024-05-01T10:00:09");
   Resume 1 (world "2024-05-01T10:00:10");
   Resume 1 (world "2024-05-01T10:00:11");
   Resume 1 (world "2024-05-01T10:00:12");
   Resume 0 (world "2024-05-01T10:00:13");
   Resume 0 (world "2024-05-01T10:00:14");
   Resume 0 (world "2024-05-01T10:00:15");
   Resume 0 (world "2024-05-01T10:00:16");
   Resume 0 (world "2024-05-01T10:00:17");
   Resume 0 (world "2024-05-01T10:00:18");
   Resume 0 (world "2024-05-01T10:00:19");
   Resume 0 (world "2024-05-01T10:00:20");
   Resume 0 (world "2024-05-01T10:00:21");
   Resume 0 (world "2024-05-01T10:00:22")].

(** The second job alone, up to its video download. *)
Definition failing_job : list Event :=
  [Submit request_b uuid_b "2024-05-01T10:00:02";
   Resume 0 (world "2024-05-01T10:00:03");
   Resume 0 (world "2024-05-01T10:00:05");
   Resume 0 (world "2024-05-01T10:00:06")].

(** The state [failing_job] leads to, and the record of the job in it. *)
Definition downloading : State := run (H := defaults) initial failing_job.

Definition downloading_record : Dict :=
  Eval vm_compute in default ∅ (jobs_status downloading !! "a81c04d7").

(** The record of the second job at the end of [two_jobs]. *)
Definition failed_record : Dict :=
  Eval vm_compute in
    default ∅ (jobs_status (run (H := defaults) initial two_jobs) !! "a81c04d7").

(** Two jobs under one identifier: the job of [request_b] runs to its
    failure, then the job of [request_a] to its end. *)
Definition shared_identifier : list Event :=
  [Submit request_b uuid_a "2024-05-01T10:00:00";
   Submit request_a uuid_c "2024-05-01T10:00:02"]
  ++ replicate 7 (Resume 0 (world "2024-05-01T10:00:30"))
  ++ replicate 14 (Resume 1 (world "2024-05-01T10:00:30")).

Definition shared_record : Dict :=
  Eval vm_compute in
    default ∅ (jobs_status (run (H := defaults) initial shared_identifier) !! "3f2a9c1e").

(** Further answers of the outside world: no network, and an encoder
    that exits with an error. *)
Definition offline (time : string) : Env :=
  {| http := λ _, HttpRaised "Connection refused";
     ffmpeg := λ _, Exited {| returncode := 0; stderr := Return "";
                              output_exists := true |};
     now := time |}.

Definition broken_encoder (time : string) : Env :=
  {| http := λ _, HttpOk "audio/wav";
     ffmpeg := λ _, Exited {| returncode := 1;
                              stderr := Return "Invalid data found when processing input";
                              output_exists := false |};
     now := time |}.

(** A third request, and two jobs under one identifier again: the job of
    [request_a] is waiting for its encoder when [request_c] is submitted
    and draws the same identifier; the job of [request_c] runs to its end;
    then the encoder of the first job exits with an error. Every switch
    from one job to the other is at an [await]. *)
Definition request_c : RenderRequest :=
  RenderRequest_init {| str_url := "https://media.example/intro.mp4" |}
                     {| str_url := "https://media.example/music.mp3" |} (Some "low").

Definition overtaken : list Event :=
  [Submit request_a uuid_a "2024-05-01T10:00:00"]
  ++ replicate 8 (Resume 0 (world "2024-05-01T10:00:01"))
  ++ [Submit request_c uuid_c "2024-05-01T10:00:02"]
  ++ replicate 13 (Resume 1 (world "2024-05-01T10:00:03"))
  ++ replicate 3 (Resume 0 (broken_encoder "2024-05-01T10:00:04")).

Definition overtaken_record : Dict :=
  Eval vm_compute in
    default ∅ (jobs_status (run (H := defaults) initial overtaken) !! "3f2a9c1e").

(** The service after the first submission. *)
Definition one_submission : list Event :=
  [Submit request_a uuid_a "2024-05-01T10:00:00"].

Definition both_submitted : list Event :=
  [Submit request_a uuid_a "2024-05-01T10:00:00";
   Submit request_b uuid_b "2024-05-01T10:00:02"].

(** A job whose audio download finds the network down. *)
Definition network_drops : list Event :=
  replicate 5 (Resume 0 (world "2024-05-01T10:00:10"))
  ++ replicate 3 (Resume 0 (offline "2024-05-01T10:00:20")).

(** A job whose encoder exits with an error. *)
Definition encoder_breaks : list Event :=
  replicate 8 (Resume 0 (world "2024-05-01T10:00:10"))
  ++ replicate 3 (Resume 0 (broken_encoder "2024-05-01T10:00:20")).

Definition version_output : CompletedProcess :=
  {| version_returncode := 0;
     stdout := "ffmpeg version 6.1.1" ++ String "010"%char "built with gcc 13.2.0" |}.

Section Properties.

Context `{Config}.

(** *** The record along one step of a coroutine *)

Lemma dict_update_lookup (new d : Dict) k :
  dict_update new d !! k = match new !! k with Some v => Some v | None => d !! k end.
Proof. unfold dict_update. rewrite lookup_union. by destruct (new !! k), (d !! k). Qed.

Lemma render_output_named run v a j q o :
  render_video run v a j q = Return o → name o ≠ "".
Proof.
  unfold render_video. repeat case_match; intros [= <-]; done.
Qed.

Lemma in_progress_status s p d : in_progress s p d → status_of d = Some s.
Proof. intros (Hs & _). unfold status_of. by rewrite Hs. Qed.

Lemma in_progress_progress s p d : in_progress s p d → progress_of d = Some p.
Proof. intros (_ & Hp & _). unfold progress_of. by rewrite Hp. Qed.

Lemma record_step_refl d s p :
  status_of d = Some s → progress_of d = Some p → record_step d d.
Proof.
  intros Hs Hp. repeat split.
  - exists p, p. repeat split; [done.. | lia].
  - exists s, s. repeat split; [done.. | constructor].
Qed.

Ltac lookups :=
  repeat first
    [ rewrite lookup_insert_eq
    | rewrite lookup_insert_ne by done
    | rewrite dict_update_lookup ];
  try done.

Lemma record_step_intro d d' s s' p p' :
  status_of d = Some s → status_of d' = Some s' →
  progress_of d = Some p → progress_of d' = Some p' →
  p ≤ p' → transition s s' → ¬ terminal s → record_step d d'.
Proof.
  intros Hs Hs' Hp Hp' Hle Htr Hnt. repeat split.
  - by exists p, p'.
  - by exists s, s'.
  - intros s0 Hs0 Ht. congruence.
Qed.

Lemma completed_status d : completed d → status_of d = Some "completed".
Proof. intros (Hs & _). unfold status_of. by rewrite Hs. Qed.

Lemma completed_progress d : completed d → progress_of d = Some 100.
Proof. intros (_ & Hp & _). unfold progress_of. by rewrite Hp. Qed.

Lemma failed_status d : failed d → status_of d = Some "failed".
Proof. intros (Hs & _). unfold status_of. by rewrite Hs. Qed.

Lemma failed_progress d : failed d → ∃ p, progress_of d = Some p ∧ p < 100.
Proof.
  intros (_ & (p & Hp & Hv) & _). exists p. unfold progress_of. rewrite Hp.
  split; [done | lia].
Qed.

Lemma not_terminal_pending : ¬ terminal "pending".
Proof. by intros [|]. Qed.

Lemma not_terminal_processing : ¬ terminal "processing".
Proof. by intros [|]. Qed.

Lemma in_progress_set_status s s' p d :
  in_progress s p d → in_progress s' p (<["status" := VStr s']> d).
Proof. intros (? & ? & ? & ? & ?). repeat split; lookups. Qed.

Lemma in_progress_set_message s p m d :
  in_progress s p d → in_progress s p (<["message" := m]> d).
Proof. intros (? & ? & ? & ? & ?). repeat split; lookups. Qed.

Lemma in_progress_set_progress s p p' d :
  in_progress s p d → in_progress s p' (<["progress" := VInt p']> d).
Proof. intros (? & ? & ? & ? & ?). repeat split; lookups. Qed.

Lemma in_progress_completed s p d finished o :
  in_progress s p d → name o ≠ "" →
  completed (dict_update (completed_fields finished o) d).
Proof.
  intros (? & ? & ? & ? & ?) Ho. repeat split; lookups.
  exists (name o). split; lookups.
Qed.

Lemma in_progress_failed s p d finished e :
  in_progress s p d → p = 10 ∨ p = 30 ∨ p = 50 →
  failed (dict_update (failed_fields finished e) d).
Proof.
  intros (? & ? & ? & ? & ?) Hp. repeat split; lookups.
  - exists p. split; lookups.
  - exists e. lookups.
Qed.

Lemma in_progress_step s s' p p' d d' :
  in_progress s p d → status_of d' = Some s' → progress_of d' = Some p' →
  p ≤ p' → transition s s' → s = "pending" ∨ s = "processing" →
  record_step d d'.
Proof.
  intros Hd Hs' Hp' Hle Htr Hs.
  eapply record_step_intro; eauto using in_progress_status, in_progress_progress.
  destruct Hs as [-> | ->]; auto using not_terminal_pending, not_terminal_processing.
Qed.

Lemma in_progress_observable s p d :
  in_progress s p d → ∃ s p, status_of d = Some s ∧ progress_of d = Some p.
Proof.
  intros Hd. exists s, p.
  split; [eapply in_progress_status | eapply in_progress_progress]; eassumption.
Qed.

Lemma completed_observable d :
  completed d → ∃ s p, status_of d = Some s ∧ progress_of d = Some p.
Proof.
  intros Hd. exists "completed", 100.
  split; [by apply completed_status | by apply completed_progress].
Qed.

Lemma failed_observable d :
  failed d → ∃ s p, status_of d = Some s ∧ progress_of d = Some p.
Proof.
  intros Hd. destruct (failed_progress _ Hd) as (p & Hp & _).
  exists "failed", p. split; [by apply failed_status | done].
Qed.

Lemma agrees_observable at_ d :
  agrees at_ d → ∃ s p, status_of d = Some s ∧ progress_of d = Some p.
Proof.
  destruct at_; simpl; intros Hag;
    eauto using in_progress_observable, completed_observable.
  - destruct Hag as [_ Hag]. eauto using in_progress_observable.
  - destruct Hag as [_ Hag]. eauto using in_progress_observable.
  - destruct Hag as (p & Hp & _). eauto using in_progress_observable.
  - destruct Hag; eauto using completed_observable, failed_observable.
  - destruct Hag; eauto using completed_observable, failed_observable.
Qed.

Lemma agrees_step_refl at_ d : agrees at_ d → record_step d d.
Proof.
  intros Hag. destruct (agrees_observable _ _ Hag) as (s & p & Hs & Hp).
  eauto using record_step_refl.
Qed.

Lemma failed_fields_progress finished e d :
  progress_of (dict_update (failed_fields finished e) d) = progress_of d.
Proof. unfold progress_of. by lookups. Qed.

Ltac record_written :=
  eapply in_progress_step;
    [ eassumption
    | first [ by eapply in_progress_status | by eapply completed_status ]
    | first [ by eapply in_progress_progress | by eapply completed_progress ]
    | lia
    | constructor
    | auto ].

Lemma resume_task st i env t d :
  background st !! i = Some t →
  jobs_status st !! job_id t = Some d →
  agrees (pc t) d →
  ∃ at' d',
    jobs_status (resume i env st) = <[job_id t := d']> (jobs_status st) ∧
    active_jobs (resume i env st) =
      (if pc t is L217 then active_jobs st - 1 else active_jobs st) ∧
    background (resume i env st) =
      <[i := {| job_id := job_id t; request := request t; pc := at' |}]> (background st) ∧
    agrees at' d' ∧ record_step d d'.
Proof.
  intros Hi Hd Hag. pose proof (agrees_step_refl _ _ Hag) as Hrefl.
  unfold resume. rewrite Hi.
  destruct t as [j rq at_]; simpl in *.
  destruct at_; simpl in *;
    unfold process_render_job, statement, mbind, M_bind, setitem, update, raise, modify,
      cleanup_temp_files, mret, M_ret;
    rewrite ?Hd; simpl.
  all: try (destruct (download_file_async _ _ _ _) eqn:Hdl; simpl).
  all: try (destruct (render_video _ _ _ _ _) eqn:Hrv; simpl).
  all: try (rewrite ?Hd; simpl).
  all: eexists _, _; (split; [first [reflexivity | symmetry; apply insert_id; eassumption] |]);
       (split; [reflexivity |]); (split; [first [reflexivity | symmetry; apply list_insert_id; eassumption] |]).
  all: try (split; [simpl; eauto | exact Hrefl]; fail).
  - assert (in_progress "processing" 0 (<["status":=VStr "processing"]> d))
      by by eapply in_progress_set_status.
    split; [done | record_written].
  - assert (in_progress "processing" 0 (<["message":=VStr "Starting download"]> d))
      by by eapply in_progress_set_message.
    split; [done | record_written].
  - assert (in_progress "processing" 10 (<["progress":=VInt 10]> d))
      by by eapply in_progress_set_progress.
    split; [done | record_written].
  - assert (in_progress "processing" 30 (<["progress":=VInt 30]> d))
      by by eapply in_progress_set_progress.
    split; [done | record_written].
  - assert (in_progress "processing" 50 (<["progress":=VInt 50]> d))
      by by eapply in_progress_set_progress.
    split; [done | record_written].
  - assert (in_progress "processing" 50 (<["message":=VStr "Processing video"]> d))
      by by eapply in_progress_set_message.
    split; [done | record_written].
  - split; [| exact Hrefl].
    split; [by eapply render_output_named | done].
  - destruct Hag as [Hname Hag].
    assert (in_progress "processing" 90 (<["progress":=VInt 90]> d))
      by by eapply in_progress_set_progress.
    split; [done | record_written].
  - destruct Hag as [Hname Hag].
    assert (completed (dict_update (completed_fields (now env) output_path) d))
      by by eapply in_progress_completed.
    split; [done | record_written].
  - destruct Hag as (p & Hag & Hp).
    assert (failed (dict_update (failed_fields (now env) error_msg) d))
      by by eapply in_progress_failed.
    split; [by right |].
    eapply in_progress_step;
      [ eassumption | by eapply failed_status
      | rewrite failed_fields_progress; by eapply in_progress_progress
      | lia | constructor | auto ].
Qed.

(** *** The registry and the tasks stay consistent *)

Lemma consistent_initial : consistent initial.
Proof. split; simpl; intros *; by rewrite ?lookup_nil, ?lookup_empty. Qed.

Lemma new_record_pending j created rq : in_progress "pending" 0 (new_record j created rq).
Proof. by repeat split. Qed.

Lemma consistent_submit st rq uuid4 created :
  consistent st → fresh st (Submit rq uuid4 created) →
  consistent (step st (Submit rq uuid4 created)).
Proof.
  intros [Hreg Hdis Hown] Hfresh. simpl in *. unfold create_render_job.
  case_bool_decide as Hcap; [done |].
  specialize (Hfresh ltac:(lia)). set (j := String.substring 0 8 uuid4) in *.
  assert (Hother : ∀ i t, background st !! i = Some t → job_id t ≠ j).
  { intros i t Hi Hj. destruct (Hreg _ _ Hi) as (d & Hd & _). congruence. }
  split; simpl.
  - intros i t Hi. apply lookup_app_Some in Hi as [Hi | [_ Hi]].
    + destruct (Hreg _ _ Hi) as (d & Hd & Hag). exists d.
      rewrite lookup_insert_ne by (symmetry; eauto). done.
    + apply list_lookup_singleton_Some in Hi as [_ <-]. simpl.
      exists (new_record j created rq). rewrite lookup_insert_eq.
      split; [done | apply new_record_pending].
  - intros i i' t t' Hi Hi' Heq.
    apply lookup_app_Some in Hi as [Hi | [Hlen Hi]];
      apply lookup_app_Some in Hi' as [Hi' | [Hlen' Hi']].
    + eauto.
    + apply list_lookup_singleton_Some in Hi' as [_ <-]. simpl in Heq.
      by destruct (Hother _ _ Hi).
    + apply list_lookup_singleton_Some in Hi as [_ <-]. simpl in Heq.
      by destruct (Hother _ _ Hi').
    + apply list_lookup_singleton_Some in Hi as [Hi _].
      apply list_lookup_singleton_Some in Hi' as [Hi' _]. lia.
  - intros j' d Hd. destruct (decide (j = j')) as [<- | Hne].
    + exists (length (background st)), {| job_id := j; request := rq; pc := L175 |}.
      split; [| done]. rewrite lookup_app_r by lia.
      by rewrite Nat.sub_diag.
    + rewrite lookup_insert_ne in Hd by done.
      destruct (Hown _ _ Hd) as (i & t & Hi & Hj). exists i, t.
      split; [| done]. by apply lookup_app_l_Some.
Qed.

Lemma resume_absent st i env : background st !! i = None → resume i env st = st.
Proof. intros Hi. unfold resume. by rewrite Hi. Qed.

Lemma consistent_resume st i env : consistent st → consistent (resume i env st).
Proof.
  intros Hst. destruct (background st !! i) as [t |] eqn:Hi;
    [| by rewrite resume_absent].
  destruct Hst as [Hreg Hdis Hown].
  destruct (Hreg _ _ Hi) as (d & Hd & Hag).
  destruct (resume_task st i env t d Hi Hd Hag)
    as (at' & d' & Hjs & _ & Hbg & Hag' & _).
  assert (Hlt : (i < length (background st))%nat) by by eapply lookup_lt_Some.
  split; rewrite ?Hjs, ?Hbg.
  - intros i0 t0 Hi0. destruct (decide (i0 = i)) as [-> | Hne].
    + rewrite list_lookup_insert_eq in Hi0 by done. injection Hi0 as <-. simpl.
      exists d'. by rewrite lookup_insert_eq.
    + rewrite list_lookup_insert_ne in Hi0 by done.
      destruct (Hreg _ _ Hi0) as (d0 & Hd0 & Hag0). exists d0.
      rewrite lookup_insert_ne; [done |]. intros Heq. eauto.
  - assert (Hid : ∀ i0 t0,
      <[i:={| job_id := job_id t; request := request t; pc := at' |}]>
        (background st) !! i0 = Some t0 →
      ∃ t1, background st !! i0 = Some t1 ∧ job_id t1 = job_id t0).
    { intros i0 t0 Hi0. destruct (decide (i0 = i)) as [-> | Hne].
      - rewrite list_lookup_insert_eq in Hi0 by done. injection Hi0 as <-. eauto.
      - rewrite list_lookup_insert_ne in Hi0 by done. eauto. }
    intros i1 i2 t1 t2 Hi1 Hi2 Heq.
    destruct (Hid _ _ Hi1) as (u1 & Hu1 & Hj1).
    destruct (Hid _ _ Hi2) as (u2 & Hu2 & Hj2).
    eapply Hdis; [done.. | congruence].
  - intros j0 d0 Hd0. destruct (decide (job_id t = j0)) as [<- | Hne].
    + exists i. eexists. split; [by apply list_lookup_insert_eq | done].
    + rewrite lookup_insert_ne in Hd0 by done.
      destruct (Hown _ _ Hd0) as (i0 & t0 & Hi0 & Hj0). exists i0, t0.
      split; [| done]. rewrite list_lookup_insert_ne; [done |].
      intros ->. congruence.
Qed.

Lemma consistent_step st ev : consistent st → fresh st ev → consistent (step st ev).
Proof.
  destruct ev; [apply consistent_submit | intros; by apply consistent_resume].
Qed.

(** Along one step a record stays in the registry and moves forward. *)
Lemma step_record st ev j d :
  consistent st → fresh st ev → jobs_status st !! j = Some d →
  ∃ d', jobs_status (step st ev) !! j = Some d' ∧ record_step d d'.
Proof.
  intros Hst Hfresh Hd.
  assert (Hrefl : record_step d d).
  { destruct (records_owned _ Hst _ _ Hd) as (i & t & Hi & <-).
    destruct (tasks_registered _ Hst _ _ Hi) as (d0 & Hd0 & Hag).
    assert (d0 = d) as -> by congruence. by eapply agrees_step_refl. }
  destruct ev as [rq uuid4 created | i env]; simpl in *.
  - unfold create_render_job. case_bool_decide; [eauto |]. simpl.
    rewrite lookup_insert_ne; [eauto |]. intros Heq.
    rewrite <- Heq, Hfresh in Hd by lia. done.
  - destruct (background st !! i) as [t |] eqn:Hi;
      [| rewrite resume_absent by done; eauto].
    destruct (tasks_registered _ Hst _ _ Hi) as (d0 & Hd0 & Hag).
    destruct (resume_task st i env t d0 Hi Hd0 Hag)
      as (at' & d' & -> & _ & _ & _ & Hstep).
    destruct (decide (job_id t = j)) as [<- | Hne].
    + rewrite lookup_insert_eq. assert (d0 = d) as -> by congruence. eauto.
    + rewrite lookup_insert_ne by done. eauto.
Qed.

(** A record enters the registry as the [pending] record of a submission. *)
Lemma step_new_record st ev j d' :
  consistent st → jobs_status st !! j = None →
  jobs_status (step st ev) !! j = Some d' → in_progress "pending" 0 d'.
Proof.
  intros Hst Hnone Hd'. destruct ev as [rq uuid4 created | i env]; simpl in *.
  - unfold create_render_job in Hd'. case_bool_decide; simpl in Hd'; [congruence |]. destruct (decide (String.substring 0 8 uuid4 = j)) as [<- | Hne].
    + rewrite lookup_insert_eq in Hd'. injection Hd' as <-. apply new_record_pending.
    + rewrite lookup_insert_ne in Hd' by done. congruence.
  - destruct (background st !! i) as [t |] eqn:Hi;
      [| rewrite resume_absent in Hd' by done; congruence].
    destruct (tasks_registered _ Hst _ _ Hi) as (d0 & Hd0 & Hag).
    destruct (resume_task st i env t d0 Hi Hd0 Hag)
      as (at' & d1 & Hjs & _).
    rewrite Hjs in Hd'. destruct (decide (job_id t = j)) as [<- | Hne];
      [congruence |]. rewrite lookup_insert_ne in Hd' by done. congruence.
Qed.

(** *** Runs *)

Lemma consistent_history st evs :
  consistent st → fresh_run st evs → Forall consistent (history st evs).
Proof.
  revert st. induction evs as [| ev evs IH]; intros st Hst Hfr; simpl.
  - constructor; [done | constructor].
  - destruct Hfr as [Hev Hfr]. constructor; [done |].
    apply IH; [by apply consistent_step | done].
Qed.

Lemma history_run st evs : ∃ sts, history st evs = (sts ++ [run st evs])%list.
Proof.
  revert st. induction evs as [| ev evs IH]; intros st.
  - by exists [].
  - destruct (IH (step st ev)) as (sts & Hsts). exists (st :: sts).
    simpl. by rewrite Hsts.
Qed.

Lemma consistent_run st evs :
  consistent st → fresh_run st evs → consistent (run st evs).
Proof.
  intros Hst Hfr. pose proof (consistent_history _ _ Hst Hfr) as Hall.
  destruct (history_run st evs) as (sts & Hsts). rewrite Hsts in Hall.
  apply Forall_app in Hall as [_ Hall]. by inversion Hall.
Qed.

Lemma history_nil st : history st [] = [st].
Proof. done. Qed.

Lemma history_cons st ev evs :
  history st (ev :: evs) = st :: history (step st ev) evs.
Proof. done. Qed.

Lemma history_head st evs : ∃ sts, history st evs = st :: sts.
Proof. destruct evs; simpl; eauto. Qed.

Lemma observe_cons {A} (f : Dict → option A) j st sts :
  observe f j (st :: sts) =
    match jobs_status st !! j ≫= f with
    | Some a => a :: observe f j sts
    | None => observe f j sts
    end.
Proof. done. Qed.

Lemma observe_last {A} (f : Dict → option A) j st evs d a :
  jobs_status (run st evs) !! j = Some d → f d = Some a →
  last (observe f j (history st evs)) = Some a.
Proof.
  intros Hd Ha. destruct (history_run st evs) as (sts & ->).
  unfold observe. rewrite omap_app. simpl. rewrite Hd. simpl. rewrite Ha.
  by rewrite last_snoc.
Qed.

(** Any observation that moves along [R] with every step of a record is
    sorted by [R] over a whole run. *)
Lemma observe_sorted {A} (f : Dict → option A) (R : A → A → Prop) :
  (∀ d d' a, record_step d d' → f d = Some a → ∃ a', f d' = Some a' ∧ R a a') →
  ∀ evs st j, consistent st → fresh_run st evs →
    Sorted R (observe f j (history st evs)).
Proof.
  intros Hmove evs. induction evs as [| ev evs IH]; intros st j Hst Hfr.
  - rewrite history_nil, observe_cons. destruct (_ ≫= f); repeat constructor.
  - destruct Hfr as [Hev Hfr]. rewrite history_cons, observe_cons.
    pose proof (IH (step st ev) j (consistent_step _ _ Hst Hev) Hfr) as Hrest.
    destruct (jobs_status st !! j) as [d |] eqn:Hd; simpl; [| done].
    destruct (f d) as [a |] eqn:Ha; [| done].
    constructor; [done |].
    destruct (step_record _ _ _ _ Hst Hev Hd) as (d' & Hd' & Hstep).
    destruct (Hmove _ _ _ Hstep Ha) as (a' & Ha' & HR).
    destruct (history_head (step st ev) evs) as (sts & ->).
    rewrite observe_cons, Hd'. simpl. rewrite Ha'. by constructor.
Qed.

Lemma observe_Forall {A} (f : Dict → option A) (P : A → Prop) j sts :
  Forall (λ st, ∀ d a, jobs_status st !! j = Some d → f d = Some a → P a) sts →
  Forall P (observe f j sts).
Proof.
  induction 1 as [| st sts Hst _ IH]; [constructor |].
  rewrite observe_cons. destruct (jobs_status st !! j) as [d |] eqn:Hd; simpl; [| done].
  destruct (f d) as [a |] eqn:Ha; [| done]. constructor; eauto.
Qed.

(** Until a submission inserts it, the record of [j] is not observed; it is
    first observed as that submission wrote it. *)
Lemma observe_first {A} (f : Dict → option A) (P : A → Prop) :
  (∀ d, in_progress "pending" 0 d → ∃ a, f d = Some a ∧ P a) →
  ∀ evs st j a, consistent st → fresh_run st evs → jobs_status st !! j = None →
    head (observe f j (history st evs)) = Some a → P a.
Proof.
  intros Hnew evs. induction evs as [| ev evs IH]; intros st j a Hst Hfr Hnone.
  - rewrite history_nil, observe_cons, Hnone. done.
  - destruct Hfr as [Hev Hfr]. rewrite history_cons, observe_cons, Hnone. simpl.
    destruct (jobs_status (step st ev) !! j) as [d' |] eqn:Hd'.
    + destruct (history_head (step st ev) evs) as (sts & ->).
      rewrite observe_cons, Hd'. simpl.
      destruct (Hnew d' (step_new_record _ _ _ _ Hst Hnone Hd')) as (a' & -> & Ha').
      simpl. by intros [= <-].
    + apply IH; [by apply consistent_step | done..].
Qed.


(** *** The job lifecycle *)

Lemma agrees_shape at_ d :
  agrees at_ d →
  (∃ s p, in_progress s p d ∧ (s = "pending" ∨ s = "processing")) ∨
  completed d ∨ failed d.
Proof.
  destruct at_; simpl; intros Hag;
    repeat match goal with
           | H : _ ∧ _ |- _ => destruct H
           | H : ∃ _, _ |- _ => destruct H
           | H : completed _ ∨ _ |- _ => destruct H
           end;
    eauto 8.
Qed.

Lemma consistent_shape st j d :
  consistent st → jobs_status st !! j = Some d →
  (∃ s p, in_progress s p d ∧ (s = "pending" ∨ s = "processing")) ∨
  completed d ∨ failed d.
Proof.
  intros Hst Hd. destruct (records_owned _ Hst _ _ Hd) as (i & t & Hi & <-).
  destruct (tasks_registered _ Hst _ _ Hi) as (d0 & Hd0 & Hag).
  assert (d0 = d) as -> by congruence. by eapply agrees_shape.
Qed.

Lemma transition_not_earlier s s' : transition s s' → not_earlier s s'.
Proof. destruct 1; unfold not_earlier; [lia | vm_compute; lia..]. Qed.

Lemma transition_terminal s s' : transition s s' → terminal s → s' = s.
Proof. destruct 1; [done | by intros [|]..]. Qed.

Lemma sorted_weaken {A} (R R' : A → A → Prop) l :
  (∀ x y, R x y → R' x y) → Sorted R l → Sorted R' l.
Proof.
  intros HR. induction 1 as [| x l _ IH Hhd]; constructor; [done |].
  destruct Hhd; constructor; auto.
Qed.

Lemma sorted_terminal s l :
  Sorted transition (s :: l) → terminal s → Forall (eq s) l.
Proof.
  revert s. induction l as [| s' l IH]; intros s Hsorted Hs; [constructor |].
  apply Sorted_inv in Hsorted as [Hl Hhd]. apply HdRel_inv in Hhd.
  apply transition_terminal in Hhd as ->; [| done].
  constructor; [done | by apply IH].
Qed.

(** X20: in a run whose admitted submissions draw unused identifiers, the
    values successively held by the [progress] field of a job's record (one
    state per statement of the coroutines, so every value written is seen)
    never decrease; the last of them is 100 when the record ends
    [completed] and is below 100 when it ends [failed]. *)
Theorem progress_non_decreasing evs j :
  fresh_run initial evs →
  let seen := observe progress_of j (history initial evs) in
  Sorted Z.le seen ∧
  Forall (λ st, ∀ d, jobs_status st !! j = Some d → is_Some (progress_of d))
    (history initial evs) ∧
  ∀ d, jobs_status (run initial evs) !! j = Some d →
    (status_of d = Some "completed" → last seen = Some 100) ∧
    (status_of d = Some "failed" → ∃ p, last seen = Some p ∧ p < 100).
Proof.
  intros Hfr seen. split; [| split].
  - apply observe_sorted; [| apply consistent_initial | done].
    intros d d' a ((p & p' & Hp & Hp' & Hle) & _) Ha.
    exists p'. split; [done |]. congruence.
  - eapply Forall_impl; [by apply consistent_history, Hfr; apply consistent_initial |].
    intros st Hst d Hd. simpl in Hst.
    destruct (consistent_shape _ _ _ Hst Hd) as [(s & p & Hd' & _) | [Hd' | Hd']].
    + erewrite in_progress_progress; eauto.
    + erewrite completed_progress; eauto.
    + destruct (failed_progress _ Hd') as (p & -> & _). eauto.
  - intros d Hd.
    pose proof (consistent_run _ _ consistent_initial Hfr) as Hst.
    destruct (consistent_shape _ _ _ Hst Hd) as [(s & p & Hd' & Hs) | [Hd' | Hd']].
    + rewrite (in_progress_status _ _ _ Hd').
      split; intros [= ->]; by destruct Hs.
    + rewrite (completed_status _ Hd'). split; [intros _ | done].
      eapply observe_last; [done | by apply completed_progress].
    + rewrite (failed_status _ Hd'). split; [done | intros _].
      destruct (failed_progress _ Hd') as (p & Hp & Hlt). exists p.
      split; [| done]. by eapply observe_last.
Qed.

(** X21: in a run whose admitted submissions draw unused identifiers, the
    [status] of a job's record is always one of [pending], [processing],
    [completed], [failed]; the record enters the registry as [pending]; from
    one state to the next the status stays or moves along pending →
    processing → completed | failed; it never comes back to an earlier
    status; and once [completed] or [failed] it no longer changes. *)
Theorem status_one_directional evs j :
  fresh_run initial evs →
  let seen := observe status_of j (history initial evs) in
  Forall (λ st, ∀ d, jobs_status st !! j = Some d →
            ∃ s, status_of d = Some s ∧
                 s ∈ ["pending"; "processing"; "completed"; "failed"])
    (history initial evs) ∧
  (∀ s, head seen = Some s → s = "pending") ∧
  Sorted transition seen ∧
  StronglySorted not_earlier seen ∧
  (∀ before s after, seen = (before ++ s :: after)%list → terminal s →
     Forall (eq s) after).
Proof.
  intros Hfr seen.
  assert (Hsorted : Sorted transition seen).
  { apply observe_sorted; [| apply consistent_initial | done].
    intros d d' a (_ & (s & s' & Hs & Hs' & Htr) & _) Ha.
    exists s'. split; [done |]. congruence. }
  split; [| split; [| split; [| split]]].
  - eapply Forall_impl; [by apply consistent_history, Hfr; apply consistent_initial |].
    intros st Hst d Hd. simpl in Hst.
    destruct (consistent_shape _ _ _ Hst Hd) as [(s & p & Hd' & Hs) | [Hd' | Hd']].
    + exists s. split; [by eapply in_progress_status |].
      destruct Hs as [-> | ->]; set_solver.
    + exists "completed". split; [by apply completed_status | set_solver].
    + exists "failed". split; [by apply failed_status | set_solver].
  - intros s Hs.
    eapply (observe_first status_of (λ s, s = "pending"));
      [| apply consistent_initial | exact Hfr | apply lookup_empty | exact Hs].
    intros d Hd. exists "pending". split; [by eapply in_progress_status | done].
  - done.
  - apply Sorted_StronglySorted.
    + intros a b c. unfold not_earlier. lia.
    + eapply sorted_weaken; [| exact Hsorted]. apply transition_not_earlier.
  - intros before s after Heq Hs. rewrite Heq in Hsorted.
    apply sorted_terminal; [| done].
    clear -Hsorted. induction before as [| a before IH]; [done |].
    apply IH. by apply Sorted_inv in Hsorted as [? _].
Qed.

(** X22: in a run whose admitted submissions draw unused identifiers, every
    record of the registry has [completed_at] and exactly one of
    [output_file] and [error] set if and only if its status is [completed] or
    [failed]; a [completed] record has a non-empty [output_file] and no
    [error], a [failed] record has an [error] text (which may be empty when
    the encoder could not be launched or its standard error could not be
    decoded: the text is then the exception's own) and no [output_file]; no
    record has both. *)
Theorem terminal_fields evs j d :
  fresh_run initial evs →
  jobs_status (run initial evs) !! j = Some d →
  let set_ k := is_Some (d !! k) in
  (set_ "completed_at" ∧
     ((set_ "output_file" ∧ ¬ set_ "error") ∨ (¬ set_ "output_file" ∧ set_ "error"))
   ↔ status_of d = Some "completed" ∨ status_of d = Some "failed") ∧
  (status_of d = Some "completed" → filled d "output_file" ∧ d !! "error" = None) ∧
  (status_of d = Some "failed" →
     (∃ e, d !! "error" = Some (VStr e)) ∧ d !! "output_file" = None) ∧
  ¬ (set_ "output_file" ∧ set_ "error").
Proof.
  intros Hfr Hd set_. unfold set_.
  pose proof (consistent_run _ _ consistent_initial Hfr) as Hst.
  destruct (consistent_shape _ _ _ Hst Hd)
    as [(s & p & Hd' & Hs) | [Hd' | Hd']].
  - rewrite (in_progress_status _ _ _ Hd').
    destruct Hd' as (_ & _ & Hc & Ho & He). rewrite Hc, Ho, He.
    assert (Hnone : ¬ is_Some (@None Value)) by (by intros [? ?]).
    assert (Hs1 : Some s ≠ Some "completed") by (intros [= ->]; by destruct Hs).
    assert (Hs2 : Some s ≠ Some "failed") by (intros [= ->]; by destruct Hs).
    tauto.
  - rewrite (completed_status _ Hd').
    destruct Hd' as (_ & _ & Hc & Ho & He). rewrite He.
    assert (Hnone : ¬ is_Some (@None Value)) by (by intros [? ?]).
    assert (is_Some (d !! "output_file")) by (destruct Ho as (? & -> & _); eauto).
    assert (Some "completed" ≠ Some "failed") by done.
    tauto.
  - rewrite (failed_status _ Hd').
    destruct Hd' as (_ & _ & Hc & He & Ho). rewrite Ho.
    assert (Hnone : ¬ is_Some (@None Value)) by (by intros [? ?]).
    assert (is_Some (d !! "error")) by (destruct He as (? & ->); eauto).
    assert (Some "failed" ≠ Some "completed") by done.
    tauto.
Qed.


(** *** Release of the capacity *)

(** One resumption, in any state: the counter moves only in the [finally]
    block, and the coroutine gets closer to its end. *)
Lemma resume_counter st i env t :
  background st !! i = Some t →
  ∃ at',
    background (resume i env st) =
      <[i := {| job_id := job_id t; request := request t; pc := at' |}]> (background st) ∧
    active_jobs (resume i env st) =
      (if pc t is L217 then active_jobs st - 1 else active_jobs st) ∧
    is_finished at' = (if pc t is L217 then true else is_finished (pc t)) ∧
    (is_finished (pc t) = false → (remaining at' < remaining (pc t))%nat).
Proof.
  intros Hi. unfold resume. rewrite Hi.
  destruct t as [j rq at_]; simpl.
  destruct at_; simpl;
    unfold process_render_job, statement, mbind, M_bind, setitem, update, raise, modify,
      cleanup_temp_files, mret, M_ret; simpl.
  all: try (destruct (jobs_status st !! j); simpl).
  all: try (destruct (download_file_async _ _ _ _); simpl).
  all: try (destruct (render_video _ _ _ _ _); simpl).
  all: eexists; (split; [first [reflexivity | symmetry; by apply list_insert_id] |]);
       repeat split; first [done | simpl; intros; lia].
Qed.

Lemma finished_submit st rq uuid4 created i :
  finished (step st (Submit rq uuid4 created)) i = finished st i.
Proof.
  unfold finished. simpl. unfold create_render_job.
  case_bool_decide; simpl; [done |].
  destruct (background st !! i) as [t |] eqn:Hi.
  - by rewrite (lookup_app_l_Some _ _ _ _ Hi).
  - apply lookup_ge_None in Hi.
    destruct (decide (i = length (background st))) as [-> | Hne].
    + rewrite lookup_app_r by lia. by rewrite Nat.sub_diag.
    + rewrite lookup_ge_None_2; [done |]. rewrite length_app. simpl. lia.
Qed.

Lemma finished_resume_other st i i' env :
  i' ≠ i → finished (resume i' env st) i = finished st i.
Proof.
  intros Hne. unfold finished.
  destruct (background st !! i') as [t' |] eqn:Hi';
    [| by rewrite resume_absent].
  destruct (resume_counter st i' env t' Hi') as (at' & -> & _).
  by rewrite list_lookup_insert_ne.
Qed.

Lemma finished_resume st i env t :
  background st !! i = Some t →
  finished (resume i env st) i = (if pc t is L217 then true else is_finished (pc t)).
Proof.
  intros Hi. unfold finished.
  destruct (resume_counter st i env t Hi) as (at' & -> & _ & Hfin & _).
  rewrite list_lookup_insert_eq by by eapply lookup_lt_Some. done.
Qed.

Lemma finished_step st ev i : finished st i = true → finished (step st ev) i = true.
Proof.
  intros Hfin. destruct ev as [rq uuid4 created | i' env].
  - by rewrite finished_submit.
  - simpl. destruct (decide (i' = i)) as [-> | Hne];
      [| by rewrite finished_resume_other].
    unfold finished in Hfin. destruct (background st !! i) as [t |] eqn:Hi; [| done].
    rewrite (finished_resume _ _ _ _ Hi). by destruct (pc t).
Qed.

Lemma finished_run st evs i : finished st i = true → finished (run st evs) i = true.
Proof.
  revert st. induction evs as [| ev evs IH]; intros st Hfin; [done |].
  simpl. apply IH. by apply finished_step.
Qed.

Lemma counter_changes_run evs st i :
  filter (λ c, c ≠ 0) (counter_changes i st evs) =
    if finished st i then []
    else if finished (run st evs) i then [-1] else [].
Proof.
  revert st. induction evs as [| ev evs IH]; intros st.
  { simpl. by destruct (finished st i). }
  cbn [counter_changes run foldl]. fold (run (step st ev) evs).
  specialize (IH (step st ev)).
  destruct ev as [rq uuid4 created | i' env].
  { by rewrite IH, finished_submit. }
  destruct (decide (i' = i)) as [-> | Hne].
  2: { rewrite IH. simpl. by rewrite finished_resume_other. }
  rewrite filter_cons, IH. simpl.
  destruct (background st !! i) as [t |] eqn:Hi.
  - rewrite (finished_resume _ _ _ _ Hi).
    destruct (resume_counter st i env t Hi) as (at' & _ & -> & _).
    assert (finished st i = is_finished (pc t)) as -> by (unfold finished; by rewrite Hi).
    destruct (pc t) eqn:Hpc; simpl;
      try (rewrite decide_False by lia; done).
    rewrite decide_True by lia.
    rewrite finished_run; [f_equal; lia |].
    rewrite (finished_resume _ _ _ _ Hi), Hpc. done.
  - rewrite resume_absent by done. rewrite decide_False by lia. done.
Qed.

(** C7: for every accepted job (task [i] of a run), in every interleaving
    and whatever its downloads and its encoding answer, the resumptions of
    its body change the counter exactly once, by -1, once the body has
    returned, and not at all before. *)
Theorem counter_released_once evs i t :
  background (run initial evs) !! i = Some t →
  filter (λ c, c ≠ 0) (counter_changes i initial evs) =
    if is_finished (pc t) then [-1] else [].
Proof.
  intros Hi. rewrite counter_changes_run.
  unfold finished. simpl. rewrite Hi. done.
Qed.

(** X14: the body of a job always returns: from any point, in any state
    and whatever the answers, as many resumptions as it has statements
    left (thirteen at most) bring it to its end. *)
Lemma job_body_finishes envs st i t :
  background st !! i = Some t → (remaining (pc t) ≤ length envs)%nat →
  finished (foldl (λ st env, resume i env st) st envs) i = true.
Proof.
  revert st t. induction envs as [| env envs IH]; intros st t Hi Hlen.
  - simpl in *. unfold finished. rewrite Hi. destruct (pc t); simpl in *; done || lia.
  - simpl. destruct (resume_counter st i env t Hi) as (at' & Hbg & _ & Hfin & Hrem).
    eapply (IH _ {| job_id := job_id t; request := request t; pc := at' |}).
    + rewrite Hbg. apply list_lookup_insert_eq. by eapply lookup_lt_Some.
    + simpl in *. destruct (is_finished (pc t)) eqn:Hpc.
      * destruct (pc t); try done. destruct at'; try done. simpl. lia.
      * specialize (Hrem eq_refl). lia.
Qed.


(** *** The failure-recording update *)

Ltac not_among :=
  rewrite ?not_elem_of_cons; repeat split; first [done | apply not_elem_of_nil].

Lemma failed_fields_frame finished e k :
  k ∉ ["status"; "message"; "error"; "completed_at"] →
  failed_fields finished e !! k = None.
Proof.
  intros Hk. unfold failed_fields. apply not_elem_of_list_to_map. exact Hk.
Qed.

(** A statement of the [try] block that raises leaves the registry alone. *)
Lemma resume_raised st i env t d e :
  background st !! i = Some t →
  jobs_status st !! job_id t = Some d →
  pc <$> background (resume i env st) !! i = Some (L206 e) →
  jobs_status (resume i env st) = jobs_status st ∧
  background (resume i env st) !! i =
    Some {| job_id := job_id t; request := request t; pc := L206 e |}.
Proof.
  intros Hi Hd. assert (Hlt : (i < length (background st))%nat) by by eapply lookup_lt_Some.
  unfold resume. rewrite Hi.
  destruct t as [j rq at_]; simpl in *.
  destruct at_; simpl;
    unfold process_render_job, statement, mbind, M_bind, setitem, update, raise, modify,
      cleanup_temp_files, mret, M_ret;
    rewrite ?Hd; simpl.
  all: try (destruct (download_file_async _ _ _ _); simpl).
  all: try (destruct (render_video _ _ _ _ _); simpl).
  all: rewrite ?Hd; simpl.
  all: rewrite ?list_lookup_insert_eq by done; rewrite ?Hi; simpl.
  all: intros [= Hpc]; subst; done.
Qed.

Lemma resume_except st i env t d e :
  background st !! i = Some t → pc t = L206 e →
  jobs_status st !! job_id t = Some d →
  jobs_status (resume i env st) =
    <[job_id t := dict_update (failed_fields (now env) e) d]> (jobs_status st).
Proof.
  intros Hi Hpc Hd. unfold resume. rewrite Hi, Hpc.
  unfold process_render_job, statement, mbind, M_bind, update. by rewrite Hd.
Qed.

(** C10: when a statement of the job body raises, the registry is first
    left as it is, and the [except] block then changes no key of the job's
    record other than [status], [message], [error] and [completed_at]: the
    [progress] reached, [created_at] and the echoed [video_url],
    [audio_url] and [quality] keep their values. *)
Theorem failure_update_frame st i env env' t d e :
  background st !! i = Some t →
  jobs_status st !! job_id t = Some d →
  pc <$> background (resume i env st) !! i = Some (L206 e) →
  ∃ d', jobs_status (resume i env' (resume i env st)) !! job_id t = Some d' ∧
    d' !! "status" = Some (VStr "failed") ∧
    d' !! "error" = Some (VStr e) ∧
    (∀ k, k ∉ ["status"; "message"; "error"; "completed_at"] → d' !! k = d !! k) ∧
    d' !! "progress" = d !! "progress" ∧
    d' !! "created_at" = d !! "created_at" ∧
    d' !! "video_url" = d !! "video_url" ∧
    d' !! "audio_url" = d !! "audio_url" ∧
    d' !! "quality" = d !! "quality".
Proof.
  intros Hi Hd Hraised.
  destruct (resume_raised _ _ _ _ _ _ Hi Hd Hraised) as [Hjs Hbg].
  rewrite <- Hjs in Hd.
  rewrite (resume_except _ i env' _ d e Hbg eq_refl Hd). simpl.
  rewrite lookup_insert_eq. eexists. split; [done |].
  split; [by lookups |]. split; [by lookups |].
  assert (Hframe : ∀ k, k ∉ ["status"; "message"; "error"; "completed_at"] →
            dict_update (failed_fields (now env') e) d !! k = d !! k).
  { intros k Hk. by rewrite dict_update_lookup, failed_fields_frame. }
  split; [exact Hframe |]. repeat split; apply Hframe; not_among.
Qed.

(** *** Quality *)

(** C3, as the code has it: a request built without [quality] carries
    [high], the default of the field declaration, and is encoded with the
    parameters of that tier; a given [quality] is kept. *)
Theorem default_quality_is_high video audio :
  quality (RenderRequest_init video audio None) = "high" ∧
  quality_args (quality (RenderRequest_init video audio None)) =
    ["-crf"; "18"; "-preset"; "medium"] ∧
  ∀ q, quality (RenderRequest_init video audio (Some q)) = q.
Proof. done. Qed.

(** C9: the command line handed to the encoder carries, for each of the
    tiers [high], [medium] and [low], its own pair of [-crf] and [-preset]
    values, (18, medium), (23, fast) and (28, ultrafast), so three different
    command lines; for a quality outside the three tiers it carries the
    pair of [medium]; and that command line is the one [render_video]
    launches: whatever the launch answers as a function of the command it
    is given, [render_video] gets the answer to this command. *)
Theorem quality_mapping q :
  q ∉ ["high"; "medium"; "low"] →
  quality_args "high" = ["-crf"; "18"; "-preset"; "medium"] ∧
  quality_args "medium" = ["-crf"; "23"; "-preset"; "fast"] ∧
  quality_args "low" = ["-crf"; "28"; "-preset"; "ultrafast"] ∧
  NoDup [quality_args "high"; quality_args "medium"; quality_args "low"] ∧
  quality_args q = quality_args "medium" ∧
  (∀ video_path audio_path output_file,
     let cmd := ffmpeg_cmd video_path audio_path output_file in
     let line crf preset :=
       ["ffmpeg"; "-y"; "-i"; str_path video_path; "-i"; str_path audio_path;
        "-c:v"; "libx264"; "-c:a"; "aac"; "-threads"; pretty FFMPEG_THREADS;
        "-crf"; crf; "-preset"; preset; "-movflags"; "+faststart";
        str_path output_file] in
     cmd "high" = line "18" "medium" ∧
     cmd "medium" = line "23" "fast" ∧
     cmd "low" = line "28" "ultrafast" ∧
     NoDup [cmd "high"; cmd "medium"; cmd "low"] ∧
     cmd q = line "23" "fast" ∧
     cmd q = cmd "medium") ∧
  ∀ video_path audio_path job_id quality (probe : list string → string),
    render_video (λ cmd, ExecRaised (probe cmd)) video_path audio_path job_id quality =
    Raise (probe (ffmpeg_cmd video_path audio_path
                    (path_div OUTPUT_DIR ("render_" ++ job_id ++ ".mp4")) quality)).
Proof.
  intros Hq.
  assert (Hmedium : quality_args q = quality_args "medium").
  { unfold quality_args at 1, dict_get, quality_settings.
    by rewrite (not_elem_of_list_to_map_1 _ q). }
  split; [done |]. split; [done |]. split; [done |].
  split; [repeat constructor; not_among |]. split; [done |].
  split; [| done].
  intros video_path audio_path output_file cmd line.
  assert (Hcmd : cmd q = cmd "medium")
    by (unfold cmd, ffmpeg_cmd; by rewrite Hmedium).
  split; [done |]. split; [done |]. split; [done |].
  split; [| by rewrite Hcmd].
  repeat constructor; not_among.
Qed.

(** *** Admission *)

(** C1: a submission that finds the in-flight counter at or above
    [MAX_CONCURRENT_JOBS] is answered with [HTTPException 429], and the whole
    state is left as it was: no record is inserted in the registry, the
    counter keeps its value, no task is scheduled. *)
Theorem create_render_job_at_capacity uuid4 created request st :
  MAX_CONCURRENT_JOBS ≤ active_jobs st →
  let (response, st') := create_render_job uuid4 created request st in
  (∃ detail, response = HTTPException 429 detail) ∧
  jobs_status st' = jobs_status st ∧
  active_jobs st' = active_jobs st ∧
  st' = st.
Proof.
  intros Hfull. unfold create_render_job.
  rewrite bool_decide_eq_true_2 by done. eauto.
Qed.

(** C2: a submission that finds the counter strictly below
    [MAX_CONCURRENT_JOBS] succeeds: the answer carries the job identifier,
    the registry holds under that identifier a record whose status is
    [pending] and which echoes the request's video URL, audio URL and
    quality, and the counter has grown by one. *)
Theorem create_render_job_below_capacity uuid4 created request st :
  active_jobs st < MAX_CONCURRENT_JOBS →
  let (response, st') := create_render_job uuid4 created request st in
  let id := String.substring 0 8 uuid4 in
  (∃ body, response = Json body ∧ body !! "job_id" = Some (VStr id)) ∧
  (∃ d, jobs_status st' !! id = Some d ∧
        d !! "job_id" = Some (VStr id) ∧
        d !! "status" = Some (VStr "pending") ∧
        d !! "video_url" = Some (VStr (str_url (video_url request))) ∧
        d !! "audio_url" = Some (VStr (str_url (audio_url request))) ∧
        d !! "quality" = Some (VStr (quality request))) ∧
  active_jobs st' = active_jobs st + 1.
Proof.
  intros Hroom. unfold create_render_job.
  rewrite bool_decide_eq_false_2 by lia. cbn [jobs_status active_jobs].
  split; [eexists; split; [reflexivity | reflexivity] |].
  split; [| reflexivity].
  eexists. split; [apply lookup_insert_eq |].
  repeat split.
Qed.

(** ** Further properties of the service *)

(** *** The counter and the cap *)

Lemma filter_length_insert {A} (P : A → Prop) `{!∀ x, Decision (P x)}
    (l : list A) i x y :
  l !! i = Some x →
  (length (filter P (<[i:=y]> l)) + (if decide (P x) then 1 else 0) =
   length (filter P l) + (if decide (P y) then 1 else 0))%nat.
Proof.
  intros Hi. pose proof (lookup_lt_Some _ _ _ Hi) as Hlt.
  rewrite <- (take_drop_middle l i x Hi) at 2.
  rewrite insert_take_drop by done.
  rewrite !filter_app, !filter_cons, !length_app.
  destruct (decide (P x)), (decide (P y)); simpl; lia.
Qed.

Lemma in_flight_step st ev :
  active_jobs (step st ev) - Z.of_nat (length (in_flight (step st ev))) =
  active_jobs st - Z.of_nat (length (in_flight st)).
Proof.
  destruct ev as [rq uuid4 created | i env]; simpl.
  - unfold create_render_job. case_bool_decide; simpl; [done |].
    unfold in_flight. simpl. rewrite filter_app, length_app. simpl. lia.
  - destruct (background st !! i) as [t |] eqn:Hi; [| by rewrite resume_absent].
    destruct (resume_counter st i env t Hi) as (at' & Hbg & -> & Hfin & _).
    unfold in_flight. rewrite Hbg.
    pose proof (filter_length_insert (λ t, is_finished (pc t) = false)
      (background st) i t {| job_id := job_id t; request := request t; pc := at' |} Hi)
      as Hlen.
    simpl in Hlen. rewrite Hfin in Hlen.
    destruct (pc t); simpl in *; repeat case_decide; try done; lia.
Qed.

(** X1: in every state of every run, [active_jobs], the figure that GET
    /health and GET /jobs report, is the number of scheduled job bodies
    that have not returned. *)
Theorem active_jobs_counts_in_flight evs :
  active_jobs (run initial evs) = Z.of_nat (length (in_flight (run initial evs))).
Proof.
  enough (Hgen : ∀ st, active_jobs (run st evs) - Z.of_nat (length (in_flight (run st evs)))
                       = active_jobs st - Z.of_nat (length (in_flight st))).
  { specialize (Hgen initial). change (in_flight initial) with (@nil Task) in Hgen.
    simpl in Hgen. lia. }
  induction evs as [| ev evs IH]; intros st; [done |].
  simpl. fold (run (step st ev) evs). rewrite IH. apply in_flight_step.
Qed.

Lemma active_jobs_step st ev :
  active_jobs (step st ev) ≤ Z.max (active_jobs st) MAX_CONCURRENT_JOBS.
Proof.
  destruct ev as [rq uuid4 created | i env]; simpl.
  - unfold create_render_job. case_bool_decide; simpl; lia.
  - destruct (background st !! i) as [t |] eqn:Hi;
      [| rewrite resume_absent by done; lia].
    destruct (resume_counter st i env t Hi) as (at' & _ & -> & _).
    destruct (pc t); lia.
Qed.

Lemma active_jobs_nonneg st evs :
  0 ≤ active_jobs st - Z.of_nat (length (in_flight st)) →
  0 ≤ active_jobs (run st evs).
Proof.
  revert st. induction evs as [| ev evs IH]; intros st Hst; [simpl; lia |].
  simpl. apply IH. rewrite in_flight_step. done.
Qed.

(** X2: the cap holds: in every state of every run the counter is between
    0 and [MAX_CONCURRENT_JOBS] (0 when the configured maximum is
    negative). *)
Theorem active_jobs_within_cap evs :
  0 ≤ active_jobs (run initial evs) ≤ Z.max 0 MAX_CONCURRENT_JOBS.
Proof.
  split; [by apply active_jobs_nonneg |].
  enough (Hgen : ∀ st, active_jobs st ≤ Z.max 0 MAX_CONCURRENT_JOBS →
                       active_jobs (run st evs) ≤ Z.max 0 MAX_CONCURRENT_JOBS)
    by (apply Hgen; simpl; lia).
  induction evs as [| ev evs IH]; intros st Hst; [done |].
  simpl. apply IH. pose proof (active_jobs_step st ev). lia.
Qed.

(** *** The registry *)

(** What one resumption does to the registry, in any state: nothing, or a
    new value for the record of the resumed job, which was there. *)
Lemma resume_registry st i env :
  jobs_status (resume i env st) = jobs_status st ∨
  ∃ t d d', background st !! i = Some t ∧ jobs_status st !! job_id t = Some d ∧
            jobs_status (resume i env st) = <[job_id t := d']> (jobs_status st).
Proof.
  destruct (background st !! i) as [t |] eqn:Hi; [| left; by rewrite resume_absent].
  unfold resume. rewrite Hi. destruct t as [j rq at_]; simpl.
  destruct (jobs_status st !! j) as [d |] eqn:Hd.
  - destruct at_; simpl;
      unfold process_render_job, statement, mbind, M_bind, setitem, update, raise, modify,
        cleanup_temp_files, mret, M_ret; rewrite ?Hd; simpl.
    all: try (destruct (download_file_async _ _ _ _); simpl).
    all: try (destruct (render_video _ _ _ _ _); simpl).
    all: rewrite ?Hd; simpl.
    all: first [by left | right; eexists _, d, _; by repeat split].
  - left. destruct at_; simpl;
      unfold process_render_job, statement, mbind, M_bind, setitem, update, raise, modify,
        cleanup_temp_files, mret, M_ret; rewrite ?Hd; simpl.
    all: try (destruct (download_file_async _ _ _ _); simpl).
    all: try (destruct (render_video _ _ _ _ _); simpl).
    all: rewrite ?Hd; simpl; done.
Qed.

Lemma step_keeps_key st ev j :
  is_Some (jobs_status st !! j) → is_Some (jobs_status (step st ev) !! j).
Proof.
  intros Hj. destruct ev as [rq uuid4 created | i env]; simpl.
  - unfold create_render_job. case_bool_decide; simpl; [done |].
    rewrite lookup_insert. case_decide; eauto.
  - destruct (resume_registry st i env) as [-> | (t & d & d' & _ & _ & ->)]; [done |].
    rewrite lookup_insert. case_decide; eauto.
Qed.

Lemma step_size st ev : (size (jobs_status st) ≤ size (jobs_status (step st ev)))%nat.
Proof.
  rewrite <- !(size_dom (D := gset string)). apply subseteq_size. intros j.
  rewrite !elem_of_dom. apply step_keeps_key.
Qed.

(** X3: no record is ever deleted: an identifier known to the registry at
    some point of a run is known at every later point, so the count that
    GET /jobs reports never goes down. *)
Theorem registry_only_grows st evs j :
  is_Some (jobs_status st !! j) →
  is_Some (jobs_status (run st evs) !! j) ∧
  (total_jobs (list_jobs st) ≤ total_jobs (list_jobs (run st evs)))%nat.
Proof.
  intros Hj. split.
  - revert st Hj. induction evs as [| ev evs IH]; intros st Hj; [done |].
    simpl. apply IH. by apply step_keeps_key.
  - clear Hj. revert st. induction evs as [| ev evs IH]; intros st; [done |].
    simpl. fold (run (step st ev) evs). etrans; [apply step_size | apply IH].
Qed.

(** X4: the body of a job writes to no record but its own: whatever the
    state and the answers, a resumption of task [i] leaves the record
    under every other identifier, and the set of identifiers, as they
    are. *)
Theorem resume_touches_own_record st i env t j :
  background st !! i = Some t → j ≠ job_id t →
  jobs_status (resume i env st) !! j = jobs_status st !! j ∧
  dom (jobs_status (resume i env st)) = dom (jobs_status st).
Proof.
  intros Hi Hj.
  destruct (resume_registry st i env) as [-> | (t' & d & d' & Hi' & Hd & ->)]; [done |].
  assert (t' = t) as -> by congruence. split.
  - by rewrite lookup_insert_ne.
  - rewrite dom_insert_L. apply subseteq_union_1_L, singleton_subseteq_l.
    by apply elem_of_dom_2 in Hd.
Qed.

Lemma step_new_key st ev j :
  jobs_status st !! j = None → is_Some (jobs_status (step st ev) !! j) →
  drawn st [ev] = [j].
Proof.
  intros Hnone Hsome. destruct ev as [rq uuid4 created | i env]; simpl in *.
  - unfold create_render_job in Hsome. case_bool_decide; simpl in *.
    + rewrite Hnone in Hsome. by destruct Hsome.
    + rewrite lookup_insert in Hsome. case_decide; [congruence |].
      rewrite Hnone in Hsome. by destruct Hsome.
  - destruct (resume_registry st i env) as [Heq | (t & d & d' & _ & Hd & Heq)];
      rewrite Heq in Hsome.
    + rewrite Hnone in Hsome. by destruct Hsome.
    + rewrite lookup_insert in Hsome. case_decide; [congruence |].
      rewrite Hnone in Hsome. by destruct Hsome.
Qed.

(** X5: GET /status answers 404 for every identifier that no admitted
    submission of the run has drawn, and a record for every one that has
    been drawn. *)
Theorem get_job_status_known evs j :
  (j ∉ drawn initial evs →
     get_job_status j (run initial evs) = HTTPException 404 "Job not found") ∧
  (j ∈ drawn initial evs →
     ∃ d, get_job_status j (run initial evs) = Json d).
Proof.
  enough (Hgen : ∀ st,
    (jobs_status st !! j = None → j ∉ drawn st evs → jobs_status (run st evs) !! j = None) ∧
    (is_Some (jobs_status st !! j) ∨ j ∈ drawn st evs →
       is_Some (jobs_status (run st evs) !! j))).
  { destruct (Hgen initial) as [Hnone Hsome]. unfold get_job_status. split.
    - intros Hj. by rewrite Hnone.
    - intros Hj. destruct (Hsome (or_intror Hj)) as [d ->]. eauto. }
  induction evs as [| ev evs IH]; intros st.
  { simpl. split; [done |]. intros [? | Hin]; [done |]. by apply elem_of_nil in Hin. }
  destruct (IH (step st ev)) as [IHnone IHsome].
  assert (Hdrawn : drawn st (ev :: evs) = (drawn st [ev] ++ drawn (step st ev) evs)%list).
  { destruct ev; simpl; [case_bool_decide |]; done. }
  rewrite Hdrawn. change (run st (ev :: evs)) with (run (step st ev) evs). split.
  - intros Hnone Hj. apply not_elem_of_app in Hj as [Hj1 Hj2].
    apply IHnone; [| done].
    destruct (jobs_status (step st ev) !! j) as [d |] eqn:Hd; [| done].
    rewrite (step_new_key st ev j Hnone) in Hj1 by eauto.
    by apply not_elem_of_cons in Hj1 as [? _].
  - intros [Hsome | Hin]; [apply IHsome; left; by apply step_keeps_key |].
    apply elem_of_app in Hin as [Hin | Hin]; [| apply IHsome; by right].
    apply IHsome. left. destruct ev as [rq uuid4 created | i env]; simpl in *.
    + unfold create_render_job. case_bool_decide; [by apply elem_of_nil in Hin |].
      apply list_elem_of_singleton in Hin as ->. simpl. rewrite lookup_insert_eq. eauto.
    + by apply elem_of_nil in Hin.
Qed.

Lemma fresh_run_app st evs evs' :
  fresh_run st (evs ++ evs') → fresh_run st evs ∧ fresh_run (run st evs) evs'.
Proof.
  revert st. induction evs as [| ev evs IH]; intros st; simpl; [done |].
  intros [Hev Hfr]. destruct (IH _ Hfr). done.
Qed.

Lemma terminal_record_stays st evs j d s :
  consistent st → fresh_run st evs →
  jobs_status st !! j = Some d → status_of d = Some s → terminal s →
  jobs_status (run st evs) !! j = Some d.
Proof.
  intros Hst Hfr Hd Hs Hterm.
  revert st Hst Hfr Hd. induction evs as [| ev evs IH]; intros st Hst Hfr Hd; [done |].
  destruct Hfr as [Hev Hfr]. simpl. apply IH; [by apply consistent_step | done |].
  destruct (step_record _ _ _ _ Hst Hev Hd) as (d' & Hd' & _ & _ & Hfix).
  by rewrite (Hfix s Hs Hterm) in Hd'.
Qed.

(** X6: once a record is [completed] or [failed] it is final: in a run
    whose submissions draw unused identifiers, GET /status answers with the
    very same body ever after. *)
Theorem get_job_status_final evs evs' j d s :
  fresh_run initial (evs ++ evs') →
  jobs_status (run initial evs) !! j = Some d → status_of d = Some s → terminal s →
  get_job_status j (run initial (evs ++ evs')) = Json d.
Proof.
  intros Hfr Hd Hs Hterm. apply fresh_run_app in Hfr as [Hfr Hfr'].
  unfold run at 1. rewrite foldl_app. fold (run initial evs).
  fold (run (run initial evs) evs'). unfold get_job_status.
  erewrite terminal_record_stays; eauto using consistent_run, consistent_initial.
Qed.

(** *** No [KeyError] *)

Lemma step_tasks_known st ev :
  (∀ i t, background st !! i = Some t → is_Some (jobs_status st !! job_id t)) →
  ∀ i t, background (step st ev) !! i = Some t →
         is_Some (jobs_status (step st ev) !! job_id t).
Proof.
  intros Hst i t Hi. destruct ev as [rq uuid4 created | i' env].
  - simpl in *. unfold create_render_job in *. case_bool_decide; simpl in *; [eauto |].
    apply lookup_app_Some in Hi as [Hi | [_ Hi]].
    + rewrite lookup_insert. case_decide; eauto.
    + apply list_lookup_singleton_Some in Hi as [_ <-]. simpl.
      rewrite lookup_insert_eq. eauto.
  - apply step_keeps_key. simpl in Hi.
    destruct (background st !! i') as [t' |] eqn:Hi';
      [| rewrite resume_absent in Hi by done; eauto].
    destruct (resume_counter st i' env t' Hi') as (at' & Hbg & _).
    rewrite Hbg in Hi. destruct (decide (i' = i)) as [-> | Hne].
    + rewrite list_lookup_insert_eq in Hi by by eapply lookup_lt_Some.
      injection Hi as <-. simpl. eauto.
    + rewrite list_lookup_insert_ne in Hi by done. eauto.
Qed.

(** X7: in every run, with or without shared identifiers, the identifier
    of every scheduled task is a key of the registry: the subscripts
    [jobs_status[job_id]] of the job body never raise [KeyError]. *)
Theorem job_body_finds_its_record evs i t key v new :
  background (run initial evs) !! i = Some t →
  is_Some (jobs_status (run initial evs) !! job_id t) ∧
  (setitem (job_id t) key v (run initial evs)).1 = Return () ∧
  (update (job_id t) new (run initial evs)).1 = Return ().
Proof.
  intros Hi.
  assert (Hknown : is_Some (jobs_status (run initial evs) !! job_id t)).
  { enough (Hgen : ∀ st,
      (∀ i t, background st !! i = Some t → is_Some (jobs_status st !! job_id t)) →
      ∀ i t, background (run st evs) !! i = Some t →
             is_Some (jobs_status (run st evs) !! job_id t)).
    { eapply Hgen; [| exact Hi]. intros i0 t0 Hi0. simpl in Hi0.
      by rewrite lookup_nil in Hi0. }
    clear. induction evs as [| ev evs IH]; intros st Hst; [done |].
    simpl. apply IH. by apply step_tasks_known. }
  split; [done |]. destruct Hknown as [d Hd].
  unfold setitem, update. by rewrite Hd.
Qed.

(** *** The record of a job depends on its own answers only *)

Lemma resume_other_record st i env t j :
  background st !! i = Some t → j ≠ job_id t →
  jobs_status (resume i env st) !! j = jobs_status st !! j.
Proof.
  intros Hi Hj.
  destruct (resume_registry st i env) as [-> | (t' & d & d' & Hi' & Hd & ->)]; [done |].
  assert (t' = t) as -> by congruence. by rewrite lookup_insert_ne.
Qed.

Lemma resume_effect st i env t d :
  background st !! i = Some t → jobs_status st !! job_id t = Some d →
  jobs_status (resume i env st) =
    <[job_id t := (effect (job_id t) (request t) env (pc t) d).2]> (jobs_status st) ∧
  background (resume i env st) =
    <[i := {| job_id := job_id t; request := request t;
              pc := (effect (job_id t) (request t) env (pc t) d).1 |}]> (background st).
Proof.
  intros Hi Hd. unfold resume. rewrite Hi.
  destruct t as [j rq at_]; simpl in *.
  destruct at_; simpl;
    unfold process_render_job, statement, mbind, M_bind, setitem, update, raise, modify,
      cleanup_temp_files, mret, M_ret;
    rewrite ?Hd; simpl.
  all: try (destruct (download_file_async _ _ _ _); simpl).
  all: try (destruct (render_video _ _ _ _ _); simpl).
  all: rewrite ?Hd; simpl.
  all: split; first [reflexivity | symmetry; by apply insert_id
                    | symmetry; by apply list_insert_id].
Qed.

Lemma answers_cons_other i ev evs :
  (∀ env, ev ≠ Resume i env) → answers i (ev :: evs) = answers i evs.
Proof.
  intros Hev. unfold answers. simpl. destruct ev as [| i' env]; [done |].
  case_decide; [| done]. subst. by destruct (Hev env).
Qed.

Lemma answers_cons_own i env evs :
  answers i (Resume i env :: evs) = env :: answers i evs.
Proof. unfold answers. simpl. by rewrite decide_True. Qed.

Lemma run_follows_effects evs : ∀ st i t d,
  consistent st → fresh_run st evs →
  background st !! i = Some t → jobs_status st !! job_id t = Some d →
  let result := effects (job_id t) (request t) (answers i evs) (pc t, d) in
  jobs_status (run st evs) !! job_id t = Some result.2 ∧
  background (run st evs) !! i =
    Some {| job_id := job_id t; request := request t; pc := result.1 |}.
Proof.
  induction evs as [| ev evs IH]; intros st i t d Hst Hfr Hi Hd.
  { simpl. by destruct t. }
  destruct Hfr as [Hev Hfr].
  pose proof (consistent_step _ _ Hst Hev) as Hst'.
  change (run st (ev :: evs)) with (run (step st ev) evs).
  destruct ev as [rq uuid4 created | i' env].
  - rewrite answers_cons_other by done. apply IH; [done.. | |].
    + simpl. unfold create_render_job. case_bool_decide; simpl; [done |].
      by apply lookup_app_l_Some.
    + simpl in *. unfold create_render_job. case_bool_decide; simpl; [done |].
      rewrite lookup_insert_ne; [done |]. intros Heq.
      rewrite <- Heq, Hev in Hd by lia. done.
  - destruct (decide (i' = i)) as [-> | Hne].
    + rewrite answers_cons_own.
      destruct (resume_effect st i env t d Hi Hd) as [Hjs Hbg].
      set (t' := {| job_id := job_id t; request := request t;
                    pc := (effect (job_id t) (request t) env (pc t) d).1 |}).
      specialize (IH (step st (Resume i env)) i t'
                     (effect (job_id t) (request t) env (pc t) d).2 Hst' Hfr).
      simpl in IH. unfold effects. simpl.
      destruct (effect (job_id t) (request t) env (pc t) d) as [at' d'] eqn:Heff.
      apply IH.
      * rewrite Hbg. apply list_lookup_insert_eq. by eapply lookup_lt_Some.
      * rewrite Hjs. apply lookup_insert_eq.
    + rewrite answers_cons_other by congruence. apply IH; [done.. | |].
      * simpl. destruct (background st !! i') as [t' |] eqn:Hi';
          [| by rewrite resume_absent].
        destruct (resume_counter st i' env t' Hi') as (at' & -> & _).
        by rewrite list_lookup_insert_ne.
      * simpl. destruct (background st !! i') as [t' |] eqn:Hi';
          [| by rewrite resume_absent].
        rewrite (resume_other_record st i' env t' (job_id t) Hi'); [done |].
        intros Heq. apply Hne. symmetry.
        eapply (tasks_distinct _ Hst); eauto.
Qed.

Lemma run_app st evs evs' : run st (evs ++ evs') = run (run st evs) evs'.
Proof. unfold run. by rewrite foldl_app. Qed.

Lemma run_from_initial evs0 evs i t :
  fresh_run initial (evs0 ++ evs) → background (run initial evs0) !! i = Some t →
  ∃ d, jobs_status (run initial evs0) !! job_id t = Some d ∧ agrees (pc t) d ∧
    let result := effects (job_id t) (request t) (answers i evs) (pc t, d) in
    jobs_status (run initial (evs0 ++ evs)) !! job_id t = Some result.2 ∧
    background (run initial (evs0 ++ evs)) !! i =
      Some {| job_id := job_id t; request := request t; pc := result.1 |}.
Proof.
  intros Hfr Hi. apply fresh_run_app in Hfr as [Hfr0 Hfr].
  pose proof (consistent_run _ _ consistent_initial Hfr0) as Hst.
  destruct (tasks_registered _ Hst _ _ Hi) as (d & Hd & Hag).
  exists d. split; [done |]. split; [done |]. rewrite run_app.
  by apply run_follows_effects.
Qed.

(** X8: the order in which the coroutines are resumed does not matter to a
    job: two continuations of a run that draw unused identifiers and give
    the body of a job the same answers leave its record, and the point it
    has reached, the same. *)
Theorem interleaving_does_not_matter evs0 evs evs' i t :
  fresh_run initial (evs0 ++ evs) → fresh_run initial (evs0 ++ evs') →
  background (run initial evs0) !! i = Some t →
  answers i evs = answers i evs' →
  jobs_status (run initial (evs0 ++ evs)) !! job_id t =
    jobs_status (run initial (evs0 ++ evs')) !! job_id t ∧
  background (run initial (evs0 ++ evs)) !! i =
    background (run initial (evs0 ++ evs')) !! i.
Proof.
  intros Hfr Hfr' Hi Hans.
  destruct (run_from_initial _ _ _ _ Hfr Hi) as (d & Hd & _ & Hjs & Hbg).
  destruct (run_from_initial _ _ _ _ Hfr' Hi) as (d' & Hd' & _ & Hjs' & Hbg').
  assert (d' = d) as -> by congruence. simpl in *.
  rewrite Hjs, Hjs', Hbg, Hbg', Hans. done.
Qed.

(** *** How a job ends *)

Lemma effects_finished j rq envs d : effects j rq envs (Finished, d) = (Finished, d).
Proof. induction envs as [| env envs IH]; [done |]. exact IH. Qed.

Lemma effects_app j rq envs envs' start :
  effects j rq (envs ++ envs') start = effects j rq envs' (effects j rq envs start).
Proof. unfold effects. by rewrite foldl_app. Qed.

Lemma download_ok get url j ty content_type :
  get (str_url url) = HttpOk content_type →
  ∃ p, download_file_async get url j ty = Return p.
Proof. intros Hget. unfold download_file_async. rewrite Hget. eauto. Qed.

Lemma render_ok run v a j q :
  (∀ cmd, ∃ process, run cmd = Exited process ∧
                     returncode process = 0 ∧ output_exists process = true) →
  render_video run v a j q = Return (path_div OUTPUT_DIR ("render_" ++ j ++ ".mp4")).
Proof.
  intros Hrun. unfold render_video.
  destruct (Hrun (ffmpeg_cmd v a (path_div OUTPUT_DIR ("render_" ++ j ++ ".mp4")) q))
    as (process & -> & -> & ->). done.
Qed.

Lemma effects_favourable j rq d e1 e2 e3 e4 e5 e6 e7 e8 e9 e10 e11 e12 e13 :
  favourable rq e4 → favourable rq e6 → favourable rq e9 →
  effects j rq [e1; e2; e3; e4; e5; e6; e7; e8; e9; e10; e11; e12; e13] (L175, d) =
  (Finished,
   dict_update (completed_fields (now e11) (path_div OUTPUT_DIR ("render_" ++ j ++ ".mp4")))
     (<["progress" := VInt 90]>
       (<["message" := VStr "Processing video"]>
         (<["progress" := VInt 50]>
           (<["progress" := VInt 30]>
             (<["progress" := VInt 10]>
               (<["message" := VStr "Starting download"]>
                 (<["status" := VStr "processing"]> d)))))))).
Proof.
  intros ((ct4 & H4) & _) (_ & (ct6 & H6) & _) (_ & _ & H9).
  unfold effects. cbn [foldl effect].
  destruct (download_ok (http e4) (video_url rq) j "video" _ H4) as (v & ->).
  cbn [foldl effect].
  destruct (download_ok (http e6) (audio_url rq) j "audio" _ H6) as (a & ->).
  cbn [foldl effect]. rewrite (render_ok _ _ _ _ _ H9). done.
Qed.

(** X9: a job whose sources download and whose encoding succeeds ends
    [completed]: in a run that draws unused identifiers and answers the
    body of the job favourably at least thirteen times, its record has
    status [completed], progress 100, the output file
    [render_{job_id}.mp4], the completion time of the eleventh answer and
    no error; the fields written at submission are kept and the task has
    returned. *)
Theorem job_completes evs0 evs i t :
  fresh_run initial (evs0 ++ evs) →
  background (run initial evs0) !! i = Some t → pc t = L175 →
  Forall (favourable (request t)) (answers i evs) →
  (13 ≤ length (answers i evs))%nat →
  ∃ d d' e11,
    jobs_status (run initial evs0) !! job_id t = Some d ∧
    jobs_status (run initial (evs0 ++ evs)) !! job_id t = Some d' ∧
    answers i evs !! 10%nat = Some e11 ∧
    d' !! "status" = Some (VStr "completed") ∧
    d' !! "progress" = Some (VInt 100) ∧
    d' !! "output_file" = Some (VStr ("render_" ++ job_id t ++ ".mp4")) ∧
    d' !! "completed_at" = Some (VStr (now e11)) ∧
    d' !! "error" = None ∧
    (∀ k, k ∈ ["job_id"; "created_at"; "video_url"; "audio_url"; "quality"] →
          d' !! k = d !! k) ∧
    pc <$> background (run initial (evs0 ++ evs)) !! i = Some Finished.
Proof.
  intros Hfr Hi Hpc Hfav Hlen.
  destruct (run_from_initial _ _ _ _ Hfr Hi) as (d & Hd & Hag & Hjs & Hbg).
  rewrite Hpc in *. simpl in Hag. destruct Hag as (_ & _ & _ & _ & Herr).
  destruct (answers i evs)
    as [| e1 [| e2 [| e3 [| e4 [| e5 [| e6 [| e7 [| e8 [| e9 [| e10 [| e11 [| e12
        [| e13 rest]]]]]]]]]]]]]; simpl in Hlen; try lia.
  repeat (apply Forall_cons in Hfav as [? Hfav]).
  change (e1 :: e2 :: e3 :: e4 :: e5 :: e6 :: e7 :: e8 :: e9 :: e10 :: e11 :: e12
            :: e13 :: rest)
    with ([e1; e2; e3; e4; e5; e6; e7; e8; e9; e10; e11; e12; e13] ++ rest)%list in *.
  rewrite effects_app, effects_favourable, effects_finished in Hjs, Hbg by done.
  simpl in Hjs, Hbg. eexists d, _, e11.
  split; [done |]. split; [exact Hjs |]. split; [done |].
  split; [by lookups |]. split; [by lookups |]. split; [by lookups |].
  split; [by lookups |]. split; [by lookups |]. split; [| by rewrite Hbg].
  intros k Hk. repeat (apply elem_of_cons in Hk as [-> | Hk]); try by lookups.
  by apply elem_of_nil in Hk.
Qed.

Lemma download_raised get url j ty x :
  get (str_url url) = HttpRaised x →
  download_file_async get url j ty = Raise ("Failed to download " ++ ty ++ ": " ++ x).
Proof. intros Hget. unfold download_file_async. by rewrite Hget. Qed.

Lemma effects_video_raised j rq d e1 e2 e3 e4 e5 e6 x :
  http e4 (str_url (video_url rq)) = HttpRaised x →
  effects j rq [e1; e2; e3; e4; e5; e6] (L175, d) =
  (Finished,
   dict_update (failed_fields (now e5) ("Failed to download video: " ++ x))
     (<["progress" := VInt 10]>
       (<["message" := VStr "Starting download"]>
         (<["status" := VStr "processing"]> d)))).
Proof.
  intros Hraised. unfold effects. cbn [foldl effect].
  rewrite (download_raised _ _ _ _ _ Hraised). done.
Qed.

Lemma effects_audio_raised j rq d e1 e2 e3 e4 e5 e6 e7 e8 content_type x :
  http e4 (str_url (video_url rq)) = HttpOk content_type →
  http e6 (str_url (audio_url rq)) = HttpRaised x →
  effects j rq [e1; e2; e3; e4; e5; e6; e7; e8] (L175, d) =
  (Finished,
   dict_update (failed_fields (now e7) ("Failed to download audio: " ++ x))
     (<["progress" := VInt 30]>
       (<["progress" := VInt 10]>
         (<["message" := VStr "Starting download"]>
           (<["status" := VStr "processing"]> d))))).
Proof.
  intros Hvideo Hraised. unfold effects. cbn [foldl effect].
  destruct (download_ok (http e4) (video_url rq) j "video" _ Hvideo) as (v & ->).
  cbn [foldl effect]. rewrite (download_raised _ _ _ _ _ Hraised). done.
Qed.

(** The four ways an encoding fails, with the text each one raises. *)
Lemma render_raised run v a j q answer error_msg :
  (∀ cmd, run cmd = answer) →
  answer = ExecRaised error_msg ∨
  (∃ process text,
     answer = Exited process ∧ returncode process ≠ 0 ∧
     stderr process = Return text ∧
     error_msg = "FFmpeg rendering failed: " ++ text) ∨
  (∃ process,
     answer = Exited process ∧ returncode process ≠ 0 ∧
     stderr process = Raise error_msg) ∨
  (∃ process,
     answer = Exited process ∧ returncode process = 0 ∧
     output_exists process = false ∧ error_msg = "Output file was not created") →
  render_video run v a j q = Raise error_msg.
Proof.
  intros Hrun Hbad. unfold render_video. rewrite Hrun.
  destruct Hbad as [-> | [(process & text & -> & Hrc & Herr & ->)
    | [(process & -> & Hrc & Herr) | (process & -> & Hrc & Hout & ->)]]].
  - done.
  - by rewrite bool_decide_eq_true_2, Herr.
  - by rewrite bool_decide_eq_true_2, Herr.
  - rewrite bool_decide_eq_false_2 by (by intros ?). by rewrite Hout.
Qed.

Lemma effects_render_raised j rq d e1 e2 e3 e4 e5 e6 e7 e8 e9 e10 e11 ct4 ct6 error_msg :
  http e4 (str_url (video_url rq)) = HttpOk ct4 →
  http e6 (str_url (audio_url rq)) = HttpOk ct6 →
  (∀ v a, render_video (ffmpeg e9) v a j (quality rq) = Raise error_msg) →
  effects j rq [e1; e2; e3; e4; e5; e6; e7; e8; e9; e10; e11] (L175, d) =
  (Finished,
   dict_update
     (failed_fields (now e10) error_msg)
     (<["message" := VStr "Processing video"]>
       (<["progress" := VInt 50]>
         (<["progress" := VInt 30]>
           (<["progress" := VInt 10]>
             (<["message" := VStr "Starting download"]>
               (<["status" := VStr "processing"]> d))))))).
Proof.
  intros Hvideo Haudio Hraised. unfold effects. cbn [foldl effect].
  destruct (download_ok (http e4) (video_url rq) j "video" _ Hvideo) as (v & ->).
  cbn [foldl effect].
  destruct (download_ok (http e6) (audio_url rq) j "audio" _ Haudio) as (a & ->).
  cbn [foldl effect]. by rewrite Hraised.
Qed.

(** X10: a job whose video download fails ends [failed]: in a run that
    draws unused identifiers, if the fourth answer to the body of the job
    (the one to the video download) is an exception [x] and the body gets
    at least six answers, its record has status [failed], the error
    ["Failed to download video: " ++ x], progress 10, no output file and
    the completion time of the fifth answer, and the task has returned. *)
Theorem job_fails_on_video_download evs0 evs i t e4 x :
  fresh_run initial (evs0 ++ evs) →
  background (run initial evs0) !! i = Some t → pc t = L175 →
  answers i evs !! 3%nat = Some e4 →
  http e4 (str_url (video_url (request t))) = HttpRaised x →
  (6 ≤ length (answers i evs))%nat →
  ∃ d' e5,
    jobs_status (run initial (evs0 ++ evs)) !! job_id t = Some d' ∧
    answers i evs !! 4%nat = Some e5 ∧
    d' !! "status" = Some (VStr "failed") ∧
    d' !! "error" = Some (VStr ("Failed to download video: " ++ x)) ∧
    d' !! "message" = Some (VStr ("Rendering failed: Failed to download video: " ++ x)) ∧
    d' !! "progress" = Some (VInt 10) ∧
    d' !! "output_file" = None ∧
    d' !! "completed_at" = Some (VStr (now e5)) ∧
    pc <$> background (run initial (evs0 ++ evs)) !! i = Some Finished.
Proof.
  intros Hfr Hi Hpc H4 Hraised Hlen.
  destruct (run_from_initial _ _ _ _ Hfr Hi) as (d & Hd & Hag & Hjs & Hbg).
  rewrite Hpc in *. simpl in Hag. destruct Hag as (_ & _ & _ & Hout & _).
  destruct (answers i evs) as [| e1 [| e2 [| e3 [| e4' [| e5 [| e6 rest]]]]]];
    simpl in Hlen; try lia.
  injection H4 as ->.
  change (e1 :: e2 :: e3 :: e4 :: e5 :: e6 :: rest)
    with ([e1; e2; e3; e4; e5; e6] ++ rest)%list in *.
  rewrite effects_app, (effects_video_raised _ _ _ _ _ _ _ _ _ _ Hraised),
    effects_finished in Hjs, Hbg.
  simpl in Hjs, Hbg. eexists _, e5.
  split; [exact Hjs |]. split; [done |].
  split; [by lookups |]. split; [by lookups |]. split; [by lookups |].
  split; [by lookups |]. split; [by lookups |]. split; [by lookups |].
  by rewrite Hbg.
Qed.

(** X11: in a run that draws unused identifiers, a job whose audio download
    fails after its video has arrived ends [failed] with progress 30, the
    error ["Failed to download audio: " ++ x] and no output file. *)
Theorem job_fails_on_audio_download evs0 evs i t e4 e6 content_type x :
  fresh_run initial (evs0 ++ evs) →
  background (run initial evs0) !! i = Some t → pc t = L175 →
  answers i evs !! 3%nat = Some e4 →
  http e4 (str_url (video_url (request t))) = HttpOk content_type →
  answers i evs !! 5%nat = Some e6 →
  http e6 (str_url (audio_url (request t))) = HttpRaised x →
  (8 ≤ length (answers i evs))%nat →
  ∃ d' e7,
    jobs_status (run initial (evs0 ++ evs)) !! job_id t = Some d' ∧
    answers i evs !! 6%nat = Some e7 ∧
    d' !! "status" = Some (VStr "failed") ∧
    d' !! "error" = Some (VStr ("Failed to download audio: " ++ x)) ∧
    d' !! "progress" = Some (VInt 30) ∧
    d' !! "output_file" = None ∧
    d' !! "completed_at" = Some (VStr (now e7)) ∧
    pc <$> background (run initial (evs0 ++ evs)) !! i = Some Finished.
Proof.
  intros Hfr Hi Hpc H4 Hvideo H6 Hraised Hlen.
  destruct (run_from_initial _ _ _ _ Hfr Hi) as (d & Hd & Hag & Hjs & Hbg).
  rewrite Hpc in *. simpl in Hag. destruct Hag as (_ & _ & _ & Hout & _).
  destruct (answers i evs)
    as [| e1 [| e2 [| e3 [| e4' [| e5 [| e6' [| e7 [| e8 rest]]]]]]]];
    simpl in Hlen; try lia.
  injection H4 as ->. injection H6 as ->.
  change (e1 :: e2 :: e3 :: e4 :: e5 :: e6 :: e7 :: e8 :: rest)
    with ([e1; e2; e3; e4; e5; e6; e7; e8] ++ rest)%list in *.
  rewrite effects_app,
    (effects_audio_raised _ _ _ _ _ _ _ _ _ _ _ _ _ Hvideo Hraised),
    effects_finished in Hjs, Hbg.
  simpl in Hjs, Hbg. eexists _, e7.
  split; [exact Hjs |]. split; [done |].
  split; [by lookups |]. split; [by lookups |]. split; [by lookups |].
  split; [by lookups |]. split; [by lookups |].
  by rewrite Hbg.
Qed.

(** X12: a job whose encoding fails after both downloads ends [failed]
    with progress 50 and no output file, in a run that draws unused
    identifiers. The error recorded is: the text of the exception when the
    encoder cannot be launched; ["FFmpeg rendering failed: "] followed by
    the standard error when the exit status is not 0 and the standard error
    decodes; the text of the decoding error when the exit status is not 0
    and the standard error does not decode; ["Output file was not created"]
    when the exit status is 0 and the output file is missing. The message
    is ["Rendering failed: "] followed by that error. *)
Theorem job_fails_on_encoding evs0 evs i t e4 e6 e9 ct4 ct6 answer error_msg :
  fresh_run initial (evs0 ++ evs) →
  background (run initial evs0) !! i = Some t → pc t = L175 →
  answers i evs !! 3%nat = Some e4 →
  http e4 (str_url (video_url (request t))) = HttpOk ct4 →
  answers i evs !! 5%nat = Some e6 →
  http e6 (str_url (audio_url (request t))) = HttpOk ct6 →
  answers i evs !! 8%nat = Some e9 →
  (∀ cmd, ffmpeg e9 cmd = answer) →
  answer = ExecRaised error_msg ∨
  (∃ process text,
     answer = Exited process ∧ returncode process ≠ 0 ∧
     stderr process = Return text ∧
     error_msg = "FFmpeg rendering failed: " ++ text) ∨
  (∃ process,
     answer = Exited process ∧ returncode process ≠ 0 ∧
     stderr process = Raise error_msg) ∨
  (∃ process,
     answer = Exited process ∧ returncode process = 0 ∧
     output_exists process = false ∧ error_msg = "Output file was not created") →
  (11 ≤ length (answers i evs))%nat →
  ∃ d' e10,
    jobs_status (run initial (evs0 ++ evs)) !! job_id t = Some d' ∧
    answers i evs !! 9%nat = Some e10 ∧
    d' !! "status" = Some (VStr "failed") ∧
    d' !! "error" = Some (VStr error_msg) ∧
    d' !! "message" = Some (VStr ("Rendering failed: " ++ error_msg)) ∧
    d' !! "progress" = Some (VInt 50) ∧
    d' !! "output_file" = None ∧
    d' !! "completed_at" = Some (VStr (now e10)) ∧
    pc <$> background (run initial (evs0 ++ evs)) !! i = Some Finished.
Proof.
  intros Hfr Hi Hpc H4 Hvideo H6 Haudio H9 Hrun Hbad Hlen.
  destruct (run_from_initial _ _ _ _ Hfr Hi) as (d & Hd & Hag & Hjs & Hbg).
  rewrite Hpc in *. simpl in Hag. destruct Hag as (_ & _ & _ & Hout & _).
  destruct (answers i evs)
    as [| e1 [| e2 [| e3 [| e4' [| e5 [| e6' [| e7 [| e8 [| e9' [| e10 [| e11 rest]]]]]]]]]]];
    simpl in Hlen; try lia.
  injection H4 as ->. injection H6 as ->. injection H9 as ->.
  change (e1 :: e2 :: e3 :: e4 :: e5 :: e6 :: e7 :: e8 :: e9 :: e10 :: e11 :: rest)
    with ([e1; e2; e3; e4; e5; e6; e7; e8; e9; e10; e11] ++ rest)%list in *.
  assert (Hraised : ∀ v a,
            render_video (ffmpeg e9) v a (job_id t) (quality (request t)) = Raise error_msg)
    by (intros v a; by eapply render_raised).
  rewrite effects_app,
    (effects_render_raised _ _ _ _ _ _ _ _ _ _ _ _ _ _ _ _ _ Hvideo Haudio Hraised),
    effects_finished in Hjs, Hbg.
  simpl in Hjs, Hbg. eexists _, e10.
  split; [exact Hjs |]. split; [done |].
  split; [by lookups |]. split; [by lookups |]. split; [by lookups |].
  split; [by lookups |]. split; [by lookups |]. split; [by lookups |].
  by rewrite Hbg.
Qed.

(** *** Strings *)

Lemma append_nil_l (s : string) : "" ++ s = s.
Proof. reflexivity. Qed.

Lemma append_cons c (s t : string) : String c s ++ t = String c (s ++ t).
Proof. reflexivity. Qed.

Lemma append_nil_r (s : string) : s ++ "" = s.
Proof. induction s as [| c s IH]; [done |]. by rewrite append_cons, IH. Qed.

Lemma append_assoc (a b c : string) : (a ++ b) ++ c = a ++ b ++ c.
Proof. induction a as [| x a IH]; [done |]. by rewrite !append_cons, IH. Qed.

Lemma rev_app_append (a b : string) : String.rev_app a b = String.rev a ++ b.
Proof.
  unfold String.rev. revert b. induction a as [| x a IH]; intros b; [done |].
  cbn [String.rev_app].
  rewrite (IH (String x b)), (IH (String x "")), append_assoc. done.
Qed.

Lemma rev_cons x (a : string) : String.rev (String x a) = String.rev a ++ String x "".
Proof. unfold String.rev at 1. cbn [String.rev_app]. apply rev_app_append. Qed.

Lemma rev_append (a b : string) : String.rev (a ++ b) = String.rev b ++ String.rev a.
Proof.
  induction a as [| x a IH].
  - by rewrite append_nil_l, append_nil_r.
  - by rewrite append_cons, !rev_cons, IH, append_assoc.
Qed.

Lemma rev_involutive (s : string) : String.rev (String.rev s) = s.
Proof.
  induction s as [| x s IH]; [done |].
  by rewrite rev_cons, rev_append, IH.
Qed.

Lemma prefix_spec (p s : string) :
  String.prefix p s = true ↔ ∃ rest, s = p ++ rest.
Proof.
  revert s. induction p as [| x p IH]; intros [| y s]; simpl.
  - split; [by exists "" | done].
  - split; [by eexists | done].
  - split; [done | by intros [? ?]].
  - case_match; [subst y |].
    + rewrite IH. split; intros [rest Hrest]; exists rest;
        rewrite ?append_cons in *; congruence.
    + split; [done | intros [rest Hrest]; rewrite append_cons in Hrest; congruence].
Qed.

Lemma contains_spec (needle hay : string) :
  contains needle hay = true ↔ ∃ before after, hay = before ++ needle ++ after.
Proof.
  induction hay as [| c hay IH]; cbn [contains].
  - rewrite orb_false_r, prefix_spec. split.
    + intros [rest Hrest]. by exists "", rest.
    + intros (before & after & Heq). destruct before; [eauto | done].
  - rewrite orb_true_iff, IH, prefix_spec. split.
    + intros [[rest Hrest] | (before & after & ->)].
      * by exists "", rest.
      * by exists (String c before), after.
    + intros (before & after & Heq). destruct before as [| x before].
      * left. eauto.
      * right. rewrite append_cons in Heq. injection Heq as -> ->. eauto.
Qed.

Lemma endswith_spec (s suffix : string) :
  endswith s suffix = true ↔ ∃ before, s = before ++ suffix.
Proof.
  unfold endswith. rewrite prefix_spec. split.
  - intros [rest Hrest]. exists (String.rev rest).
    rewrite <- (rev_involutive s), Hrest, rev_append, rev_involutive. done.
  - intros [before ->]. exists (String.rev before). apply rev_append.
Qed.

Lemma append_cancel_r (a b s : string) : a ++ s = b ++ s → a = b.
Proof.
  intros Heq. apply (f_equal String.rev) in Heq. rewrite !rev_append in Heq.
  apply String.app_inj in Heq. rewrite <- (rev_involutive a), Heq. apply rev_involutive.
Qed.

(** *** The downloader and the encoder invoker *)

(** X13: a download that succeeds is saved in [TEMP_DIR] under the job
    identifier and the role; a video always gets [.mp4]; an audio file
    gets [.wav] exactly when the content type of the answer contains
    [wav] or the URL ends in [.wav], and [.mp3] otherwise. *)
Theorem download_file_names get url j content_type :
  get (str_url url) = HttpOk content_type →
  download_file_async get url j "video" =
    Return (path_div TEMP_DIR (j ++ "_video.mp4")) ∧
  ∃ extension,
    download_file_async get url j "audio" =
      Return (path_div TEMP_DIR (j ++ "_audio" ++ extension)) ∧
    (extension = ".wav" ∨ extension = ".mp3") ∧
    (extension = ".wav" ↔
       (∃ before after, content_type = before ++ "wav" ++ after) ∨
       (∃ before, str_url url = before ++ ".wav")).
Proof.
  intros Hget. unfold download_file_async. rewrite Hget. simpl. split; [done |].
  assert (Hwav : contains "wav" content_type || endswith (str_url url) ".wav" = true ↔
                 (∃ before after, content_type = before ++ "wav" ++ after) ∨
                 (∃ before, str_url url = before ++ ".wav"))
    by by rewrite orb_true_iff, contains_spec, endswith_spec.
  destruct (contains "wav" content_type || endswith (str_url url) ".wav").
  - exists ".wav". split; [done |]. split; [by left |]. split; [intros _ | done].
    by apply Hwav.
  - exists ".mp3". split; [done |]. split; [by right |]. split; [done |].
    intros Hsome. by apply Hwav in Hsome.
Qed.

(** A download that fails raises a message that names the role and
    carries the cause. *)
Lemma download_failure_message get url j file_type e :
  download_file_async get url j file_type = Raise e →
  ∃ cause, get (str_url url) = HttpRaised cause ∧
           e = "Failed to download " ++ file_type ++ ": " ++ cause ∧ e ≠ "".
Proof.
  unfold download_file_async. destruct (get (str_url url)) as [ct | cause]; [done |].
  intros [= <-]. exists cause. done.
Qed.

(** X15: two encodings that succeed into the same output file belong to
    the same job identifier: jobs with different identifiers never write
    the same output. *)
Theorem render_video_output_per_job run run' v v' a a' j j' q q' p :
  render_video run v a j q = Return p →
  render_video run' v' a' j' q' = Return p →
  j = j'.
Proof.
  unfold render_video. repeat case_match; try done.
  intros [= <-] [= Heq]. apply String.app_inj in Heq. by apply append_cancel_r in Heq.
Qed.

(** X16: whatever the quality string of the request, the command line is
    one of three fixed shapes of nineteen arguments: the inputs in the order
    video, audio, the codecs, the configured thread count, one of the three
    [-crf]/[-preset] pairs, the fast-start flag and the output; the
    request's quality text itself is never passed to the encoder. *)
Theorem ffmpeg_cmd_shape video_path audio_path output_file q :
  ∃ crf preset,
    (crf, preset) ∈ [("18", "medium"); ("23", "fast"); ("28", "ultrafast")] ∧
    ffmpeg_cmd video_path audio_path output_file q =
      ["ffmpeg"; "-y"; "-i"; str_path video_path; "-i"; str_path audio_path;
       "-c:v"; "libx264"; "-c:a"; "aac"; "-threads"; pretty FFMPEG_THREADS;
       "-crf"; crf; "-preset"; preset; "-movflags"; "+faststart";
       str_path output_file].
Proof.
  unfold ffmpeg_cmd, quality_args, dict_get.
  destruct (quality_settings !! q) as [args |] eqn:Hq.
  - apply elem_of_list_to_map_2 in Hq.
    rewrite !elem_of_cons, elem_of_nil in Hq.
    destruct Hq as [[= _ ->] | [[= _ ->] | [[= _ ->] | []]]].
    + exists "18", "medium". split; [apply list_elem_of_here | done].
    + exists "23", "fast".
      split; [apply list_elem_of_further, list_elem_of_here | done].
    + exists "28", "ultrafast".
      split; [do 2 apply list_elem_of_further; apply list_elem_of_here | done].
  - exists "23", "fast".
    split; [apply list_elem_of_further, list_elem_of_here | done].
Qed.

(** X17: [get_ffmpeg_version] always answers with one line: never a line
    feed in it; when the version command exits with 0 the answer is the
    beginning of its standard output, up to the end or to the first line
    feed. *)
Theorem get_ffmpeg_version_one_line result :
  (∀ before after,
     get_ffmpeg_version result ≠ before ++ String "010"%char after) ∧
  (∀ r, result = Some r → version_returncode r = 0 →
     ∃ rest, stdout r = get_ffmpeg_version result ++ rest ∧
             (rest = "" ∨ ∃ rest', rest = String "010"%char rest')).
Proof.
  assert (Hline : ∀ s before after, first_line s ≠ before ++ String "010"%char after).
  { induction s as [| c s IH]; intros before after; simpl.
    - by destruct before.
    - destruct (Ascii.eqb c "010") eqn:Hc; [by destruct before |].
      destruct before as [| x before].
      + rewrite append_nil_l. intros [= -> _]. by rewrite Ascii.eqb_refl in Hc.
      + rewrite append_cons. intros [= _ Heq]. by eapply IH. }
  assert (Hrest : ∀ s, ∃ rest, s = first_line s ++ rest ∧
                       (rest = "" ∨ ∃ rest', rest = String "010"%char rest')).
  { induction s as [| c s (rest & IH & Hrest)]; simpl.
    - exists "". split; [done | by left].
    - destruct (Ascii.eqb c "010") eqn:Hc.
      + apply Ascii.eqb_eq in Hc as ->. exists (String "010" s).
        split; [done | right; by eexists].
      + exists rest. rewrite append_cons. split; [congruence | done]. }
  assert (Hfixed : ∀ s before after,
            contains (String "010"%char "") s = false →
            s ≠ before ++ String "010"%char after).
  { intros s before after Hs Heq.
    rewrite (proj2 (contains_spec (String "010"%char "") s)) in Hs; [done |].
    exists before, after. by rewrite Heq. }
  split.
  - intros before after. destruct result as [r |]; simpl.
    + case_bool_decide; [apply Hline | by apply Hfixed].
    + by apply Hfixed.
  - intros r -> Hrc. simpl. rewrite bool_decide_eq_true_2 by done. apply Hrest.
Qed.

(** *** Capacity and bookkeeping over whole runs *)

Lemma in_flight_run st evs :
  active_jobs (run st evs) - Z.of_nat (length (in_flight (run st evs))) =
  active_jobs st - Z.of_nat (length (in_flight st)).
Proof.
  revert st. induction evs as [| ev evs IH]; intros st; [done |].
  simpl. fold (run (step st ev) evs). rewrite IH. apply in_flight_step.
Qed.

(** X18: capacity does not leak: with a positive maximum, whenever every
    job body scheduled so far has returned, the next submission is
    admitted, however many jobs ran and however they ended. *)
Theorem idle_service_admits evs uuid4 created request :
  0 < MAX_CONCURRENT_JOBS →
  Forall (λ t, is_finished (pc t) = true) (background (run initial evs)) →
  ∃ body, (create_render_job uuid4 created request (run initial evs)).1 = Json body.
Proof.
  intros Hmax Hidle. pose proof (in_flight_run initial evs) as Hcount.
  assert (Hnone : in_flight (run initial evs) = []).
  { unfold in_flight. induction Hidle as [| t ts Ht _ IH]; [done |].
    rewrite filter_cons, decide_False by congruence. exact IH. }
  rewrite Hnone in Hcount. change (in_flight initial) with (@nil Task) in Hcount.
  simpl in Hcount. unfold create_render_job.
  rewrite bool_decide_eq_false_2 by lia. simpl. eauto.
Qed.

Lemma step_bookkeeping st ev :
  consistent st → fresh st ev →
  (size (jobs_status (step st ev)) + length (background st) =
   size (jobs_status st) + length (background (step st ev)))%nat.
Proof.
  intros Hst Hev. destruct ev as [rq uuid4 created | i env]; simpl in *.
  - unfold create_render_job. case_bool_decide; simpl; [done |].
    rewrite map_size_insert_None by (apply Hev; lia). rewrite length_app. simpl. lia.
  - destruct (background st !! i) as [t |] eqn:Hi; [| by rewrite resume_absent].
    destruct (resume_counter st i env t Hi) as (at' & -> & _).
    rewrite length_insert.
    destruct (resume_registry st i env) as [-> | (t' & d & d' & _ & Hd & ->)]; [done |].
    rewrite map_size_insert_Some; [done | by rewrite Hd].
Qed.

(** X19: in a run whose submissions draw unused identifiers the registry
    holds exactly one record per admitted submission: the total that GET
    /jobs reports is the number of job bodies scheduled. *)
Theorem total_jobs_counts_submissions evs :
  fresh_run initial evs →
  total_jobs (list_jobs (run initial evs)) = length (background (run initial evs)).
Proof.
  intros Hfr. simpl.
  enough (Hgen : ∀ st, consistent st → fresh_run st evs →
    (size (jobs_status (run st evs)) + length (background st) =
     size (jobs_status st) + length (background (run st evs)))%nat).
  { specialize (Hgen initial consistent_initial Hfr). simpl in Hgen.
    rewrite map_size_empty in Hgen. lia. }
  clear Hfr. induction evs as [| ev evs IH]; intros st Hst Hfr; [done |].
  destruct Hfr as [Hev Hfr]. simpl. fold (run (step st ev) evs).
  specialize (IH _ (consistent_step _ _ Hst Hev) Hfr).
  pose proof (step_bookkeeping st ev Hst Hev). lia.
Qed.

End Properties.

(** ** The theorems at work *)

(** A third submission while two jobs are in flight is turned away. *)
Lemma create_render_job_at_capacity_witness :
  let st := run (H := defaults) initial
              [Submit request_a uuid_a "2024-05-01T10:00:00";
               Submit request_b uuid_b "2024-05-01T10:00:02"] in
  MAX_CONCURRENT_JOBS (Config := defaults) ≤ active_jobs st ∧
  let (response, st') :=
    create_render_job (H := defaults) uuid_c "2024-05-01T10:00:03" request_a st in
  (∃ detail, response = HTTPException 429 detail) ∧
  jobs_status st' = jobs_status st ∧
  active_jobs st' = active_jobs st ∧
  st' = st.
Proof.
  intros st.
  assert (Hfull : MAX_CONCURRENT_JOBS (Config := defaults) ≤ active_jobs st)
    by (vm_compute; discriminate).
  split; [exact Hfull |].
  exact (create_render_job_at_capacity (H := defaults) uuid_c "2024-05-01T10:00:03"
           request_a st Hfull).
Defined.

(** The first submission of a fresh service is admitted. *)
Lemma create_render_job_below_capacity_witness :
  active_jobs initial < MAX_CONCURRENT_JOBS (Config := defaults) ∧
  let (response, st') :=
    create_render_job (H := defaults) uuid_a "2024-05-01T10:00:00" request_a initial in
  let id := String.substring 0 8 uuid_a in
  (∃ body, response = Json body ∧ body !! "job_id" = Some (VStr id)) ∧
  (∃ d, jobs_status st' !! id = Some d ∧
        d !! "job_id" = Some (VStr id) ∧
        d !! "status" = Some (VStr "pending") ∧
        d !! "video_url" = Some (VStr (str_url (video_url request_a))) ∧
        d !! "audio_url" = Some (VStr (str_url (audio_url request_a))) ∧
        d !! "quality" = Some (VStr (quality request_a))) ∧
  active_jobs st' = active_jobs initial + 1.
Proof.
  assert (Hroom : active_jobs initial < MAX_CONCURRENT_JOBS (Config := defaults))
    by (vm_compute; reflexivity).
  split; [exact Hroom |].
  exact (create_render_job_below_capacity (H := defaults) uuid_a "2024-05-01T10:00:00"
           request_a initial Hroom).
Defined.

Lemma two_jobs_fresh : fresh_run (H := defaults) initial two_jobs.
Proof. vm_compute. repeat split; intros; reflexivity. Defined.

(** The progress of both jobs of [two_jobs]. *)
Lemma progress_non_decreasing_witness :
  fresh_run (H := defaults) initial two_jobs ∧
  Sorted Z.le (observe progress_of "3f2a9c1e" (history (H := defaults) initial two_jobs)) ∧
  Sorted Z.le (observe progress_of "a81c04d7" (history (H := defaults) initial two_jobs)).
Proof.
  split; [exact two_jobs_fresh |]. split.
  - exact (proj1 (progress_non_decreasing (H := defaults) two_jobs "3f2a9c1e" two_jobs_fresh)).
  - exact (proj1 (progress_non_decreasing (H := defaults) two_jobs "a81c04d7" two_jobs_fresh)).
Defined.

Lemma status_one_directional_witness :
  fresh_run (H := defaults) initial two_jobs ∧
  Sorted transition (observe status_of "a81c04d7" (history (H := defaults) initial two_jobs)).
Proof.
  split; [exact two_jobs_fresh |].
  exact (proj1 (proj2 (proj2
    (status_one_directional (H := defaults) two_jobs "a81c04d7" two_jobs_fresh)))).
Defined.

(** The record of the failed job of [two_jobs]. *)
Lemma terminal_fields_witness :
  fresh_run (H := defaults) initial two_jobs ∧
  jobs_status (run (H := defaults) initial two_jobs) !! "a81c04d7" = Some failed_record ∧
  (status_of failed_record = Some "failed" →
   (∃ e, failed_record !! "error" = Some (VStr e)) ∧
   failed_record !! "output_file" = None).
Proof.
  assert (Hd : jobs_status (run (H := defaults) initial two_jobs) !! "a81c04d7"
               = Some failed_record) by (vm_compute; reflexivity).
  split; [exact two_jobs_fresh |]. split; [exact Hd |].
  exact (proj1 (proj2 (proj2
    (terminal_fields (H := defaults) two_jobs "a81c04d7" failed_record
       two_jobs_fresh Hd)))).
Defined.

(** The second job of [two_jobs] fails, and gives its slot back once. *)
Lemma counter_released_once_witness :
  background (run (H := defaults) initial two_jobs) !! 1%nat =
    Some {| job_id := "a81c04d7"; request := request_b; pc := Finished |} ∧
  filter (λ c, c ≠ 0) (counter_changes (H := defaults) 1 initial two_jobs) = [-1].
Proof.
  assert (Hi : background (run (H := defaults) initial two_jobs) !! 1%nat =
    Some {| job_id := "a81c04d7"; request := request_b; pc := Finished |})
    by (vm_compute; reflexivity).
  split; [exact Hi |].
  exact (counter_released_once (H := defaults) two_jobs 1 _ Hi).
Defined.

(** The failure of the video download of [failing_job], as recorded. *)
Lemma failure_update_frame_witness :
  let t := {| job_id := "a81c04d7"; request := request_b; pc := L180 |} in
  let e := "Failed to download video: 404 Client Error: Not Found for url: https://media.example/gone.mp4" in
  let raised := resume (H := defaults) 0 (world "2024-05-01T10:00:08") downloading in
  background downloading !! 0%nat = Some t ∧
  jobs_status downloading !! "a81c04d7" = Some downloading_record ∧
  pc <$> background raised !! 0%nat = Some (L206 e) ∧
  downloading_record !! "progress" = Some (VInt 10) ∧
  ∃ d', jobs_status (resume (H := defaults) 0 (world "2024-05-01T10:00:10") raised)
          !! "a81c04d7" = Some d' ∧
    d' !! "status" = Some (VStr "failed") ∧
    d' !! "error" = Some (VStr e) ∧
    (∀ k, k ∉ ["status"; "message"; "error"; "completed_at"] →
          d' !! k = downloading_record !! k) ∧
    d' !! "progress" = downloading_record !! "progress" ∧
    d' !! "created_at" = downloading_record !! "created_at" ∧
    d' !! "video_url" = downloading_record !! "video_url" ∧
    d' !! "audio_url" = downloading_record !! "audio_url" ∧
    d' !! "quality" = downloading_record !! "quality".
Proof.
  intros t e raised.
  assert (Hi : background downloading !! 0%nat = Some t) by (vm_compute; reflexivity).
  assert (Hd : jobs_status downloading !! job_id t = Some downloading_record)
    by (vm_compute; reflexivity).
  assert (Hraised : pc <$> background raised !! 0%nat = Some (L206 e))
    by (vm_compute; reflexivity).
  split; [exact Hi |]. split; [exact Hd |]. split; [exact Hraised |].
  split; [vm_compute; reflexivity |].
  exact (failure_update_frame (H := defaults) downloading 0
           (world "2024-05-01T10:00:08") (world "2024-05-01T10:00:10")
           t downloading_record e Hi Hd Hraised).
Defined.

(** A tier that does not exist is encoded as [medium]: the command line
    of the job [3f2a9c1e] for the quality [ultra]. *)
Lemma quality_mapping_witness :
  ("ultra" ∉ ["high"; "medium"; "low"]) ∧
  ffmpeg_cmd (H := defaults)
    (path_div "/tmp/ffmpeg" "3f2a9c1e_video.mp4")
    (path_div "/tmp/ffmpeg" "3f2a9c1e_audio.wav")
    (path_div "/app/output" "render_3f2a9c1e.mp4") "ultra" =
  ["ffmpeg"; "-y"; "-i"; "/tmp/ffmpeg/3f2a9c1e_video.mp4";
   "-i"; "/tmp/ffmpeg/3f2a9c1e_audio.wav";
   "-c:v"; "libx264"; "-c:a"; "aac"; "-threads"; "3";
   "-crf"; "23"; "-preset"; "fast"; "-movflags"; "+faststart";
   "/app/output/render_3f2a9c1e.mp4"].
Proof.
  assert (Hq : "ultra" ∉ ["high"; "medium"; "low"]).
  { rewrite !not_elem_of_cons. repeat split; first [discriminate | apply not_elem_of_nil]. }
  split; [exact Hq |].
  exact (proj1 (proj2 (proj2 (proj2 (proj2
    (proj1 (proj2 (proj2 (proj2 (proj2 (proj2
      (quality_mapping (H := defaults) "ultra" Hq))))))
       (path_div "/tmp/ffmpeg" "3f2a9c1e_video.mp4")
       (path_div "/tmp/ffmpeg" "3f2a9c1e_audio.wav")
       (path_div "/app/output" "render_3f2a9c1e.mp4"))))))).
Defined.

(** C3 as the specification words it fails: [request_a] is built without
    [quality]; its quality is not [medium], and it is not encoded with the
    parameters of [medium]. *)
Lemma default_quality_is_not_medium :
  let request :=
    RenderRequest_init {| str_url := "https://media.example/clip.mp4" |}
                       {| str_url := "https://media.example/voice.wav" |} None in
  quality request ≠ "medium" ∧
  quality_args (quality request) ≠ quality_args "medium".
Proof. split; discriminate. Qed.

(** C8 on the code: two draws of [uuid4] that share their first eight
    characters give two admitted submissions one identifier; the second
    submission replaces the record of the first, and the registry holds a
    single record for the two jobs in flight. *)
Theorem job_id_collision :
  let st1 := step (H := defaults) initial (Submit request_a uuid_a "2024-05-01T10:00:00") in
  let st2 := step (H := defaults) st1 (Submit request_b uuid_c "2024-05-01T10:00:02") in
  uuid_a ≠ uuid_c ∧
  job_id <$> background st2 = ["3f2a9c1e"; "3f2a9c1e"] ∧
  active_jobs st2 = 2 ∧
  jobs_status st1 !! "3f2a9c1e" =
    Some (new_record "3f2a9c1e" "2024-05-01T10:00:00" request_a) ∧
  jobs_status st2 !! "3f2a9c1e" =
    Some (new_record "3f2a9c1e" "2024-05-01T10:00:02" request_b) ∧
  size (jobs_status st2) = 1%nat.
Proof. repeat split; try discriminate; vm_compute; reflexivity. Qed.

(** C4 on the code, through the defect of C8: in [overtaken] the job of
    [request_a] has reached progress 50 and waits for its encoder when the
    submission of [request_c] draws the same identifier; the progress of
    the record [3f2a9c1e] goes from 50 back to 0, so the values seen are
    not non-decreasing; the second job brings it to 100, then the first
    job fails, and the record ends [failed] with progress 100. *)
Theorem progress_falls_back_on_collision :
  let sts := history (H := defaults) initial overtaken in
  let seen := observe progress_of "3f2a9c1e" sts in
  uuid_a ≠ uuid_c ∧
  job_id <$> background (run (H := defaults) initial overtaken) = ["3f2a9c1e"; "3f2a9c1e"] ∧
  seen = [0; 0; 0; 10; 10; 30; 30; 50; 50;
          0; 0; 0; 10; 10; 30; 30; 50; 50; 50; 90; 100; 100; 100;
          100; 100; 100] ∧
  ¬ Sorted Z.le seen ∧
  observe status_of "3f2a9c1e" [run (H := defaults) initial overtaken] = ["failed"] ∧
  last seen = Some 100.
Proof.
  intros sts seen.
  assert (Hseen : seen = [0; 0; 0; 10; 10; 30; 30; 50; 50;
                          0; 0; 0; 10; 10; 30; 30; 50; 50; 50; 90; 100; 100; 100;
                          100; 100; 100]) by (vm_compute; reflexivity).
  split; [discriminate |]. split; [vm_compute; reflexivity |].
  split; [exact Hseen |]. split; [| split; [vm_compute; reflexivity | by rewrite Hseen]].
  rewrite Hseen. intros Hsorted.
  do 8 (apply Sorted_inv in Hsorted as [Hsorted _]).
  apply Sorted_inv in Hsorted as [_ Hhd]. apply HdRel_inv in Hhd. lia.
Qed.

(** C5 on the code, through the defect of C8: in [overtaken] the status of
    the record [3f2a9c1e] goes from [processing] back to [pending] when the
    second submission draws the identifier of the first, and later from
    [completed] to [failed] when the first job fails after the second has
    completed: the status moves back to an earlier state, and [completed]
    is not terminal. *)
Theorem status_moves_back_on_collision :
  let seen := observe status_of "3f2a9c1e" (history (H := defaults) initial overtaken) in
  seen = (replicate 1 "pending" ++ replicate 8 "processing"
          ++ replicate 1 "pending" ++ replicate 10 "processing"
          ++ replicate 4 "completed" ++ replicate 2 "failed")%list ∧
  ¬ Sorted transition seen ∧
  ¬ StronglySorted not_earlier seen ∧
  ∃ before after,
    seen = (before ++ "completed" :: after)%list ∧ terminal "completed" ∧
    ¬ Forall (eq "completed") after.
Proof.
  intros seen.
  assert (Hseen : seen = (replicate 1 "pending" ++ replicate 8 "processing"
                          ++ replicate 1 "pending" ++ replicate 10 "processing"
                          ++ replicate 4 "completed" ++ replicate 2 "failed")%list)
    by (vm_compute; reflexivity).
  split; [exact Hseen |]. rewrite Hseen. cbn [replicate app]. split; [| split].
  - intros Hsorted. do 8 (apply Sorted_inv in Hsorted as [Hsorted _]).
    apply Sorted_inv in Hsorted as [_ Hhd]. apply HdRel_inv in Hhd.
    inversion Hhd.
  - intros Hsorted. do 8 (apply StronglySorted_inv in Hsorted as [Hsorted _]).
    apply StronglySorted_inv in Hsorted as [_ Hall].
    apply Forall_inv in Hall. vm_compute in Hall. lia.
  - exists (replicate 1 "pending" ++ replicate 8 "processing"
            ++ replicate 1 "pending" ++ replicate 10 "processing"
            ++ replicate 3 "completed")%list, (replicate 2 "failed").
    split; [reflexivity |]. split; [by left |].
    intros Hall. apply Forall_inv in Hall. discriminate.
Qed.

(** C6 on the code, through the defect of C8: a record written by two jobs
    has both [error] and [output_file] set. In [shared_identifier] the
    first job fails on its download and the second completes: the record
    ends [completed] with the error of the first. In [overtaken] the second
    job completes and the first then fails in its encoder: the record ends
    [failed] with the output file of the second. *)
Theorem error_and_output_on_collision :
  jobs_status (run (H := defaults) initial shared_identifier) !! "3f2a9c1e"
    = Some shared_record ∧
  status_of shared_record = Some "completed" ∧
  shared_record !! "error" =
    Some (VStr "Failed to download video: 404 Client Error: Not Found for url: https://media.example/gone.mp4") ∧
  shared_record !! "output_file" = Some (VStr "render_3f2a9c1e.mp4") ∧
  jobs_status (run (H := defaults) initial overtaken) !! "3f2a9c1e"
    = Some overtaken_record ∧
  status_of overtaken_record = Some "failed" ∧
  overtaken_record !! "error" =
    Some (VStr "FFmpeg rendering failed: Invalid data found when processing input") ∧
  overtaken_record !! "output_file" = Some (VStr "render_3f2a9c1e.mp4").
Proof.
  split; [vm_compute; reflexivity |].
  split; [reflexivity |]. split; [reflexivity |]. split; [reflexivity |].
  split; [vm_compute; reflexivity |].
  split; [reflexivity |]. split; reflexivity.
Qed.

(** ** The further properties at work *)

Lemma registry_only_grows_witness :
  let st := run (H := defaults) initial one_submission in
  is_Some (jobs_status st !! "3f2a9c1e") ∧
  is_Some (jobs_status (run (H := defaults) st (drop 1 two_jobs)) !! "3f2a9c1e") ∧
  (total_jobs (list_jobs st)
   ≤ total_jobs (list_jobs (run (H := defaults) st (drop 1 two_jobs))))%nat.
Proof.
  intros st.
  assert (Hj : is_Some (jobs_status st !! "3f2a9c1e")).
  { exists (new_record "3f2a9c1e" "2024-05-01T10:00:00" request_a).
    vm_cast_no_check
      (eq_refl (Some (new_record "3f2a9c1e" "2024-05-01T10:00:00" request_a))). }
  split; [exact Hj |].
  exact (registry_only_grows (H := defaults) st (drop 1 two_jobs) "3f2a9c1e" Hj).
Defined.

(** The first statement of the second job of [both_submitted] leaves the
    record of the first job as it is. *)
Lemma resume_touches_own_record_witness :
  let st := run (H := defaults) initial both_submitted in
  let t := {| job_id := "a81c04d7"; request := request_b; pc := L175 |} in
  background st !! 1%nat = Some t ∧ "3f2a9c1e" ≠ job_id t ∧
  jobs_status (resume (H := defaults) 1 (world "2024-05-01T10:00:03") st) !! "3f2a9c1e"
    = jobs_status st !! "3f2a9c1e".
Proof.
  intros st t.
  assert (Hi : background st !! 1%nat = Some t) by (vm_compute; reflexivity).
  assert (Hj : "3f2a9c1e" ≠ job_id t) by discriminate.
  split; [exact Hi |]. split; [exact Hj |].
  exact (proj1 (resume_touches_own_record (H := defaults) st 1
                  (world "2024-05-01T10:00:03") t "3f2a9c1e" Hi Hj)).
Defined.

Lemma two_jobs_drawn : drawn (H := defaults) initial two_jobs = ["3f2a9c1e"; "a81c04d7"].
Proof. vm_compute. reflexivity. Defined.

Lemma get_job_status_known_witness :
  ("ffffffff" ∉ drawn (H := defaults) initial two_jobs) ∧
  ("3f2a9c1e" ∈ drawn (H := defaults) initial two_jobs) ∧
  get_job_status "ffffffff" (run (H := defaults) initial two_jobs)
    = HTTPException 404 "Job not found" ∧
  ∃ d, get_job_status "3f2a9c1e" (run (H := defaults) initial two_jobs) = Json d.
Proof.
  assert (Hout : "ffffffff" ∉ drawn (H := defaults) initial two_jobs).
  { rewrite two_jobs_drawn, !not_elem_of_cons.
    repeat split; first [discriminate | apply not_elem_of_nil]. }
  assert (Hin : "3f2a9c1e" ∈ drawn (H := defaults) initial two_jobs).
  { rewrite two_jobs_drawn. apply list_elem_of_here. }
  split; [exact Hout |]. split; [exact Hin |]. split.
  - exact (proj1 (get_job_status_known (H := defaults) two_jobs "ffffffff") Hout).
  - exact (proj2 (get_job_status_known (H := defaults) two_jobs "3f2a9c1e") Hin).
Defined.

(** The failed job of [two_jobs] keeps its record while a third job is
    submitted and starts. *)
Lemma get_job_status_final_witness :
  let later := [Submit request_c uuid_d "2024-05-01T10:01:00";
                Resume 2 (world "2024-05-01T10:01:01");
                Resume 1 (world "2024-05-01T10:01:02");
                Resume 2 (world "2024-05-01T10:01:03");
                Resume 2 (world "2024-05-01T10:01:04")] in
  fresh_run (H := defaults) initial (two_jobs ++ later) ∧
  jobs_status (run (H := defaults) initial two_jobs) !! "a81c04d7" = Some failed_record ∧
  status_of failed_record = Some "failed" ∧ terminal "failed" ∧
  get_job_status "a81c04d7" (run (H := defaults) initial (two_jobs ++ later))
    = Json failed_record.
Proof.
  intros later.
  assert (Hfr : fresh_run (H := defaults) initial (two_jobs ++ later))
    by (vm_compute; repeat split; intros; reflexivity).
  assert (Hd : jobs_status (run (H := defaults) initial two_jobs) !! "a81c04d7"
               = Some failed_record)
    by (vm_cast_no_check (eq_refl (Some failed_record))).
  assert (Hs : status_of failed_record = Some "failed") by reflexivity.
  assert (Ht : terminal "failed") by (right; reflexivity).
  split; [exact Hfr |]. split; [exact Hd |]. split; [exact Hs |]. split; [exact Ht |].
  exact (get_job_status_final (H := defaults) two_jobs later "a81c04d7" failed_record
           "failed" Hfr Hd Hs Ht).
Defined.

Lemma job_body_finds_its_record_witness :
  let t := {| job_id := "3f2a9c1e"; request := request_b; pc := Finished |} in
  background (run (H := defaults) initial shared_identifier) !! 0%nat = Some t ∧
  is_Some (jobs_status (run (H := defaults) initial shared_identifier) !! job_id t).
Proof.
  intros t.
  assert (Hi : background (run (H := defaults) initial shared_identifier) !! 0%nat = Some t)
    by (vm_compute; reflexivity).
  split; [exact Hi |].
  exact (proj1 (job_body_finds_its_record (H := defaults) shared_identifier 0 t
                  "status" (VStr "processing") ∅ Hi)).
Defined.

Lemma interleaving_does_not_matter_witness :
  let one := [Resume 0 (world "2024-05-01T10:00:03");
              Resume 1 (world "2024-05-01T10:00:04")] in
  let other := [Resume 1 (world "2024-05-01T10:00:04");
                Resume 1 (world "2024-05-01T10:00:05");
                Resume 0 (world "2024-05-01T10:00:03")] in
  let t := {| job_id := "3f2a9c1e"; request := request_a; pc := L175 |} in
  fresh_run (H := defaults) initial (both_submitted ++ one) ∧
  fresh_run (H := defaults) initial (both_submitted ++ other) ∧
  background (run (H := defaults) initial both_submitted) !! 0%nat = Some t ∧
  answers 0 one = answers 0 other ∧
  jobs_status (run (H := defaults) initial (both_submitted ++ one)) !! "3f2a9c1e" =
  jobs_status (run (H := defaults) initial (both_submitted ++ other)) !! "3f2a9c1e".
Proof.
  intros one other t.
  assert (Hfr : fresh_run (H := defaults) initial (both_submitted ++ one))
    by (vm_compute; repeat split; intros; reflexivity).
  assert (Hfr' : fresh_run (H := defaults) initial (both_submitted ++ other))
    by (vm_compute; repeat split; intros; reflexivity).
  assert (Hi : background (run (H := defaults) initial both_submitted) !! 0%nat = Some t)
    by (vm_compute; reflexivity).
  assert (Hans : answers 0 one = answers 0 other) by reflexivity.
  split; [exact Hfr |]. split; [exact Hfr' |]. split; [exact Hi |]. split; [exact Hans |].
  exact (proj1 (interleaving_does_not_matter (H := defaults) both_submitted one other 0 t
                  Hfr Hfr' Hi Hans)).
Defined.

Lemma job_completes_witness :
  let t := {| job_id := "3f2a9c1e"; request := request_a; pc := L175 |} in
  let evs := replicate 13 (Resume 0 (world "2024-05-01T10:00:30")) in
  fresh_run (H := defaults) initial (one_submission ++ evs) ∧
  background (run (H := defaults) initial one_submission) !! 0%nat = Some t ∧
  Forall (favourable (request t)) (answers 0 evs) ∧
  (13 ≤ length (answers 0 evs))%nat ∧
  ∃ d', jobs_status (run (H := defaults) initial (one_submission ++ evs)) !! "3f2a9c1e"
          = Some d' ∧
        d' !! "status" = Some (VStr "completed") ∧
        d' !! "output_file" = Some (VStr "render_3f2a9c1e.mp4").
Proof.
  intros t evs.
  assert (Hfr : fresh_run (H := defaults) initial (one_submission ++ evs))
    by (vm_compute; repeat split; intros; reflexivity).
  assert (Hi : background (run (H := defaults) initial one_submission) !! 0%nat = Some t)
    by (vm_compute; reflexivity).
  assert (Hfav : Forall (favourable (request t)) (answers 0 evs)).
  { change (answers 0 evs) with (replicate 13 (world "2024-05-01T10:00:30")).
    apply Forall_replicate. split; [by eexists |]. split; [by eexists |].
    intros cmd. eexists. split; [reflexivity |]. split; reflexivity. }
  assert (Hlen : (13 ≤ length (answers 0 evs))%nat) by (vm_compute; lia).
  split; [exact Hfr |]. split; [exact Hi |]. split; [exact Hfav |]. split; [exact Hlen |].
  destruct (job_completes (H := defaults) one_submission evs 0 t Hfr Hi eq_refl Hfav Hlen)
    as (d & d' & e11 & _ & Hd' & _ & Hstatus & _ & Hout & _).
  exists d'. split; [exact Hd' |]. split; [exact Hstatus | exact Hout].
Defined.

Lemma job_fails_on_video_download_witness :
  let t := {| job_id := "a81c04d7"; request := request_b; pc := L175 |} in
  let e4 := world "2024-05-01T10:00:08" in
  let x := "404 Client Error: Not Found for url: https://media.example/gone.mp4" in
  fresh_run (H := defaults) initial (take 3 two_jobs ++ drop 3 two_jobs) ∧
  background (run (H := defaults) initial (take 3 two_jobs)) !! 1%nat = Some t ∧
  answers 1 (drop 3 two_jobs) !! 3%nat = Some e4 ∧
  http e4 (str_url (video_url (request t))) = HttpRaised x ∧
  (6 ≤ length (answers 1 (drop 3 two_jobs)))%nat ∧
  ∃ d', jobs_status (run (H := defaults) initial (take 3 two_jobs ++ drop 3 two_jobs))
          !! "a81c04d7" = Some d' ∧
        d' !! "status" = Some (VStr "failed") ∧
        d' !! "error" = Some (VStr ("Failed to download video: " ++ x)) ∧
        d' !! "progress" = Some (VInt 10).
Proof.
  intros t e4 x.
  assert (Hfr : fresh_run (H := defaults) initial (take 3 two_jobs ++ drop 3 two_jobs))
    by exact two_jobs_fresh.
  assert (Hi : background (run (H := defaults) initial (take 3 two_jobs)) !! 1%nat = Some t)
    by (vm_compute; reflexivity).
  assert (H4 : answers 1 (drop 3 two_jobs) !! 3%nat = Some e4) by reflexivity.
  assert (Hx : http e4 (str_url (video_url (request t))) = HttpRaised x) by reflexivity.
  assert (Hlen : (6 ≤ length (answers 1 (drop 3 two_jobs)))%nat) by (vm_compute; lia).
  split; [exact Hfr |]. split; [exact Hi |]. split; [exact H4 |]. split; [exact Hx |].
  split; [exact Hlen |].
  destruct (job_fails_on_video_download (H := defaults) (take 3 two_jobs)
              (drop 3 two_jobs) 1 t e4 x Hfr Hi eq_refl H4 Hx Hlen)
    as (d' & e5 & Hd' & _ & Hstatus & Herror & _ & Hprogress & _).
  exists d'. split; [exact Hd' |]. split; [exact Hstatus |].
  split; [exact Herror | exact Hprogress].
Defined.

Lemma job_fails_on_audio_download_witness :
  let t := {| job_id := "3f2a9c1e"; request := request_a; pc := L175 |} in
  let e4 := world "2024-05-01T10:00:10" in
  let e6 := offline "2024-05-01T10:00:20" in
  fresh_run (H := defaults) initial (one_submission ++ network_drops) ∧
  background (run (H := defaults) initial one_submission) !! 0%nat = Some t ∧
  answers 0 network_drops !! 3%nat = Some e4 ∧
  http e4 (str_url (video_url (request t))) = HttpOk "application/octet-stream" ∧
  answers 0 network_drops !! 5%nat = Some e6 ∧
  http e6 (str_url (audio_url (request t))) = HttpRaised "Connection refused" ∧
  (8 ≤ length (answers 0 network_drops))%nat ∧
  ∃ d', jobs_status (run (H := defaults) initial (one_submission ++ network_drops))
          !! "3f2a9c1e" = Some d' ∧
        d' !! "status" = Some (VStr "failed") ∧
        d' !! "error" = Some (VStr "Failed to download audio: Connection refused") ∧
        d' !! "progress" = Some (VInt 30).
Proof.
  intros t e4 e6.
  assert (Hfr : fresh_run (H := defaults) initial (one_submission ++ network_drops))
    by (vm_compute; repeat split; intros; reflexivity).
  assert (Hi : background (run (H := defaults) initial one_submission) !! 0%nat = Some t)
    by (vm_compute; reflexivity).
  assert (H4 : answers 0 network_drops !! 3%nat = Some e4) by reflexivity.
  assert (Hv : http e4 (str_url (video_url (request t)))
               = HttpOk "application/octet-stream") by reflexivity.
  assert (H6 : answers 0 network_drops !! 5%nat = Some e6) by reflexivity.
  assert (Hx : http e6 (str_url (audio_url (request t))) = HttpRaised "Connection refused")
    by reflexivity.
  assert (Hlen : (8 ≤ length (answers 0 network_drops))%nat) by (vm_compute; lia).
  split; [exact Hfr |]. split; [exact Hi |]. split; [exact H4 |]. split; [exact Hv |].
  split; [exact H6 |]. split; [exact Hx |]. split; [exact Hlen |].
  destruct (job_fails_on_audio_download (H := defaults) one_submission network_drops 0 t
              e4 e6 _ _ Hfr Hi eq_refl H4 Hv H6 Hx Hlen)
    as (d' & e7 & Hd' & _ & Hstatus & Herror & Hprogress & _).
  exists d'. split; [exact Hd' |]. split; [exact Hstatus |].
  split; [exact Herror | exact Hprogress].
Defined.

Lemma job_fails_on_encoding_witness :
  let t := {| job_id := "3f2a9c1e"; request := request_a; pc := L175 |} in
  let e4 := world "2024-05-01T10:00:10" in
  let e9 := broken_encoder "2024-05-01T10:00:20" in
  let process := {| returncode := 1;
                    stderr := Return "Invalid data found when processing input";
                    output_exists := false |} in
  let error_msg := "FFmpeg rendering failed: Invalid data found when processing input" in
  fresh_run (H := defaults) initial (one_submission ++ encoder_breaks) ∧
  background (run (H := defaults) initial one_submission) !! 0%nat = Some t ∧
  answers 0 encoder_breaks !! 3%nat = Some e4 ∧
  http e4 (str_url (video_url (request t))) = HttpOk "application/octet-stream" ∧
  answers 0 encoder_breaks !! 5%nat = Some e4 ∧
  http e4 (str_url (audio_url (request t))) = HttpOk "application/octet-stream" ∧
  answers 0 encoder_breaks !! 8%nat = Some e9 ∧
  (∀ cmd, ffmpeg e9 cmd = Exited process) ∧
  returncode process ≠ 0 ∧
  (11 ≤ length (answers 0 encoder_breaks))%nat ∧
  ∃ d', jobs_status (run (H := defaults) initial (one_submission ++ encoder_breaks))
          !! "3f2a9c1e" = Some d' ∧
        d' !! "status" = Some (VStr "failed") ∧
        d' !! "error" = Some (VStr error_msg) ∧
        d' !! "progress" = Some (VInt 50).
Proof.
  intros t e4 e9 process error_msg.
  assert (Hfr : fresh_run (H := defaults) initial (one_submission ++ encoder_breaks))
    by (vm_compute; repeat split; intros; reflexivity).
  assert (Hi : background (run (H := defaults) initial one_submission) !! 0%nat = Some t)
    by (vm_compute; reflexivity).
  assert (H4 : answers 0 encoder_breaks !! 3%nat = Some e4) by reflexivity.
  assert (Hv : http e4 (str_url (video_url (request t)))
               = HttpOk "application/octet-stream") by reflexivity.
  assert (H6 : answers 0 encoder_breaks !! 5%nat = Some e4) by reflexivity.
  assert (Ha : http e4 (str_url (audio_url (request t)))
               = HttpOk "application/octet-stream") by reflexivity.
  assert (H9 : answers 0 encoder_breaks !! 8%nat = Some e9) by reflexivity.
  assert (Hrun : ∀ cmd, ffmpeg e9 cmd = Exited process) by (intros cmd; reflexivity).
  assert (Hrc : returncode process ≠ 0) by discriminate.
  assert (Hlen : (11 ≤ length (answers 0 encoder_breaks))%nat) by (vm_compute; lia).
  split; [exact Hfr |]. split; [exact Hi |]. split; [exact H4 |]. split; [exact Hv |].
  split; [exact H6 |]. split; [exact Ha |]. split; [exact H9 |]. split; [exact Hrun |].
  split; [exact Hrc |]. split; [exact Hlen |].
  destruct (job_fails_on_encoding (H := defaults) one_submission encoder_breaks 0 t
              e4 e4 e9 _ _ (Exited process) error_msg Hfr Hi eq_refl H4 Hv H6 Ha H9 Hrun
              (or_intror (or_introl
                 (ex_intro _ process (ex_intro _ "Invalid data found when processing input"
                    (conj eq_refl (conj Hrc (conj eq_refl eq_refl)))))))
              Hlen)
    as (d' & e10 & Hd' & _ & Hstatus & Herror & _ & Hprogress & _).
  exists d'. split; [exact Hd' |]. split; [exact Hstatus |].
  split; [exact Herror | exact Hprogress].
Defined.

Lemma download_file_names_witness :
  let get := http (world "2024-05-01T10:00:10") in
  let url := {| str_url := "https://media.example/voice.wav" |} in
  get (str_url url) = HttpOk "application/octet-stream" ∧
  download_file_async (H := defaults) get url "3f2a9c1e" "video" =
    Return (path_div "/tmp/ffmpeg" "3f2a9c1e_video.mp4").
Proof.
  intros get url.
  assert (Hget : get (str_url url) = HttpOk "application/octet-stream") by reflexivity.
  split; [exact Hget |].
  exact (proj1 (download_file_names (H := defaults) get url "3f2a9c1e" _ Hget)).
Defined.

Lemma job_body_finishes_witness :
  let t := {| job_id := "a81c04d7"; request := request_b; pc := L180 |} in
  let envs := replicate 10 (world "2024-05-01T10:00:30") in
  background downloading !! 0%nat = Some t ∧
  (remaining (pc t) ≤ length envs)%nat ∧
  finished (foldl (λ st env, resume (H := defaults) 0 env st) downloading envs) 0 = true.
Proof.
  intros t envs.
  assert (Hi : background downloading !! 0%nat = Some t) by (vm_compute; reflexivity).
  assert (Hlen : (remaining (pc t) ≤ length envs)%nat) by (vm_compute; lia).
  split; [exact Hi |]. split; [exact Hlen |].
  exact (job_body_finishes (H := defaults) envs downloading 0 t Hi Hlen).
Defined.

Lemma render_video_output_per_job_witness :
  let run := ffmpeg (world "2024-05-01T10:00:30") in
  let v := path_div "/tmp/ffmpeg" "3f2a9c1e_video.mp4" in
  let a := path_div "/tmp/ffmpeg" "3f2a9c1e_audio.wav" in
  let p := path_div "/app/output" "render_3f2a9c1e.mp4" in
  render_video (H := defaults) run v a "3f2a9c1e" "high" = Return p ∧
  render_video (H := defaults) run v a "3f2a9c1e" "low" = Return p ∧
  "3f2a9c1e" = "3f2a9c1e".
Proof.
  intros run v a p.
  assert (H1 : render_video (H := defaults) run v a "3f2a9c1e" "high" = Return p)
    by reflexivity.
  assert (H2 : render_video (H := defaults) run v a "3f2a9c1e" "low" = Return p)
    by reflexivity.
  split; [exact H1 |]. split; [exact H2 |].
  exact (render_video_output_per_job (H := defaults) run run v v a a _ _ _ _ p H1 H2).
Defined.

Lemma get_ffmpeg_version_one_line_witness :
  version_returncode version_output = 0 ∧
  ∃ rest, stdout version_output = get_ffmpeg_version (Some version_output) ++ rest ∧
          (rest = "" ∨ ∃ rest', rest = String "010"%char rest').
Proof.
  assert (Hrc : version_returncode version_output = 0) by reflexivity.
  split; [exact Hrc |].
  exact (proj2 (get_ffmpeg_version_one_line (Some version_output))
           version_output eq_refl Hrc).
Defined.

Lemma idle_service_admits_witness :
  0 < MAX_CONCURRENT_JOBS (Config := defaults) ∧
  Forall (λ t, is_finished (pc t) = true)
    (background (run (H := defaults) initial two_jobs)) ∧
  ∃ body, (create_render_job (H := defaults) uuid_c "2024-05-01T10:02:00" request_a
             (run (H := defaults) initial two_jobs)).1 = Json body.
Proof.
  assert (Hmax : 0 < MAX_CONCURRENT_JOBS (Config := defaults)) by reflexivity.
  assert (Hidle : Forall (λ t, is_finished (pc t) = true)
                    (background (run (H := defaults) initial two_jobs))).
  { assert (Hbg : background (run (H := defaults) initial two_jobs) =
      [{| job_id := "3f2a9c1e"; request := request_a; pc := Finished |};
       {| job_id := "a81c04d7"; request := request_b; pc := Finished |}])
      by (vm_compute; reflexivity).
    rewrite Hbg. repeat constructor. }
  split; [exact Hmax |]. split; [exact Hidle |].
  exact (idle_service_admits (H := defaults) two_jobs uuid_c "2024-05-01T10:02:00"
           request_a Hmax Hidle).
Defined.

Lemma total_jobs_counts_submissions_witness :
  fresh_run (H := defaults) initial two_jobs ∧
  total_jobs (list_jobs (run (H := defaults) initial two_jobs)) =
    length (background (run (H := defaults) initial two_jobs)).
Proof.
  split; [exact two_jobs_fresh |].
  exact (total_jobs_counts_submissions (H := defaults) two_jobs two_jobs_fresh).
Defined.
